(** * DelegateEase: the delegation operation engine

    A shallow embedding of the TypeScript sources of the repository:

    - [src/utils/gmail-integration.ts]: [createGmailClient], [listDelegates],
      [processDelegateOperation], [processBatchOperations];
    - [src/createDelegate.ts] and the delete script: [addDelegateAccount],
      [deleteDelegateAccount];
    - [src/app/api/delegates/route.ts]: the script-driven API route
      ([addDelegate], [removeDelegate], [processBatch], [POST]) and the form
      hook ([parseBatchOperations], [handleSubmit]);
    - the direct-API variant of the route ([addDelegateDirectly],
      [removeDelegateDirectly], its [processBatch]).

    JavaScript strings are modelled as Rocq strings, read as sequences of code
    units below 256.  Every effect of the program (file system, child
    process, console, Gmail API) is a [Call]; the answers come from an
    environment [Env] that may depend on everything that happened before, so
    that a theorem quantified over [Env] covers every pattern of failures. *)

From Stdlib Require Import String Ascii List Bool Arith Lia.
Import ListNotations.
Local Open Scope string_scope.
Local Open Scope list_scope.

Set Implicit Arguments.

(** String concatenation, kept apart from the [++] of lists. *)
Infix "+++" := String.append (right associativity, at level 60).

(** ** JavaScript string primitives *)

Module Js.

(** [String.prototype.split] with a one-character separator: the pieces
    between the separators, in order; the empty string splits into one
    empty piece. *)
Fixpoint split (sep : ascii) (s : string) : list string :=
  match s with
  | EmptyString => [EmptyString]
  | String c s' =>
      if Ascii.eqb c sep then EmptyString :: split sep s'
      else match split sep s' with
           | w :: ws => String c w :: ws
           | [] => [String c EmptyString]
           end
  end.

(** White space as [trim] sees it, among the code units below 256:
    U+0009 to U+000D, U+0020 and U+00A0. *)
Definition is_space (c : ascii) : bool :=
  let n := nat_of_ascii c in
  ((9 <=? n)%nat && (n <=? 13)%nat) || (n =? 32)%nat || (n =? 160)%nat.

Fixpoint trimStart (s : string) : string :=
  match s with
  | String c s' => if is_space c then trimStart s' else s
  | EmptyString => EmptyString
  end.

Fixpoint trimEnd (s : string) : string :=
  match s with
  | EmptyString => EmptyString
  | String c s' =>
      match trimEnd s' with
      | EmptyString => if is_space c then EmptyString else String c EmptyString
      | t => String c t
      end
  end.

Definition trim (s : string) : string := trimEnd (trimStart s).

(** [s.includes(t)]: [t] occurs in [s] as a contiguous substring. *)
Fixpoint includes (s t : string) : bool :=
  String.prefix t s ||
  match s with
  | EmptyString => false
  | String _ s' => includes s' t
  end.

(** Truthiness of a string: non-empty. *)
Definition truthy (s : string) : bool :=
  match s with EmptyString => false | _ => true end.

(** [a || b] on strings. *)
Definition or_else (a b : string) : string := if truthy a then a else b.

(** A template literal prints an undefined value as [undefined]. *)
Definition show (v : option string) : string :=
  match v with Some s => s | None => "undefined" end.

(** A string field of a JSON value as JavaScript sees it. *)
Inductive value : Type :=
| Undefined
| Null
| Str (s : string).

(** [v === d] where [d] is a string or undefined. *)
Definition strict_eq (v : value) (d : option string) : bool :=
  match v, d with
  | Str s, Some s' => String.eqb s s'
  | Undefined, None => true
  | _, _ => false
  end.

(** [v || undefined]: null and the empty string become undefined. *)
Definition or_undefined (v : value) : value :=
  match v with
  | Str s => if truthy s then Str s else Undefined
  | _ => Undefined
  end.

End Js.

(** [t] occurs in [s]: the specification of [Js.includes]. *)
Definition Infix (t s : string) : Prop :=
  exists pre post, s = pre +++ t +++ post.

(** ** Requests and results *)

(** One entry of a batch, as the parser produces it and the processors
    destructure it: [{ operation, userEmail, delegateEmail }]. *)
Record Request : Type := mkRequest {
  req_operation : string;
  req_userEmail : option string;
  req_delegateEmail : option string
}.

(** The three kinds of request of the specification. *)
Definition AddRequest (m d : string) : Request :=
  mkRequest "add" (Some m) (Some d).
Definition RemoveRequest (m d : string) : Request :=
  mkRequest "remove" (Some m) (Some d).
Definition ListRequest (m : string) : Request :=
  mkRequest "list" (Some m) None.

Definition recognised (kind : string) : bool :=
  (kind =? "add") || (kind =? "remove") || (kind =? "list").

(** ** The batch parser of the form hook *)

Definition newline : ascii := ascii_of_nat 10.
Definition comma : ascii := ascii_of_nat 44.

(** The callback of [.map] in [parseBatchOperations]:
    [const [op, user, delegate] = line.split(",").map((item) => item.trim())]. *)
Definition parseLine (line : string) : Request :=
  let items := map Js.trim (Js.split comma line) in
  {| req_operation := hd EmptyString items;
     req_userEmail := nth_error items 1;
     req_delegateEmail := nth_error items 2 |}.

Definition parseBatchOperations (batch : string) : list Request :=
  map parseLine
    (filter (fun line => Js.truthy (Js.trim line)) (Js.split newline batch)).

(** A delegate as the Gmail API reports it. *)
Record Delegate : Type := mkDelegate {
  delegateEmail : Js.value;
  verificationStatus : Js.value
}.

(** The objects pushed on the result arrays.  A field the JavaScript object
    does not have is [None].  The diagnostic fields [details], [error] and
    [stack], which no decision reads, are left out; [rawOutput] is kept. *)
Record OperationResult : Type := mkResult {
  success : bool;
  userEmail : option string;
  delegateEmail_ : option string;
  operation : option string;
  message : option string;
  delegates : option (list Delegate);
  rawOutput : option string
}.

(** ** Effects: calls, environment, computations *)

(** A thrown JavaScript error: its [message], and the [response.data] an API
    error may carry (only ever printed). *)
Record Error : Type := mkError {
  err_message : string;
  err_response : option string
}.

Inductive Outcome (A : Type) : Type :=
| Returned (a : A)
| Thrown (e : Error).
Arguments Returned {A} a.
Arguments Thrown {A} e.

(** What [JSON.parse] makes of the key file: [null], on which a property
    access throws, or a value whose [client_email] and [private_key] can be
    read (possibly undefined). *)
Inductive ServiceAccount : Type :=
| JsonNull
| JsonKey (client_email private_key : Js.value).

(** The uploaded key file; its content only matters through what the
    environment answers when it is read back. *)
Record File : Type := mkFile { file_content : string }.

(** A Gmail client: the JWT identity impersonating [subject]. *)
Record Gmail : Type := mkGmail { subject : option string }.

(** Everything the program does to the outside world. *)
Inductive Call : Type :=
| FsWrite                       (* a temporary file is written *)
| FsRead                        (* the key file is read and parsed *)
| FsExists
| FsUnlink
| Exec (script : string)        (* npx ts-node <script> --params <file> *)
| ConsoleLog (text : string)
| ConsoleError (text : string)
| Toast (title description : string)
| GetAccessToken (who : option string)
| GetProfile (who : option string)
| DelegatesList (who : option string)
| DelegatesCreate (who : option string) (delegate : option string)
| DelegatesDelete (who : option string) (delegate : option string).

Definition Trace : Type := list Call.

(** A call that reaches the remote mail service. *)
Definition is_remote (c : Call) : bool :=
  match c with
  | GetAccessToken _ | GetProfile _ | DelegatesList _
  | DelegatesCreate _ _ | DelegatesDelete _ _ => true
  | _ => false
  end.

(** A call to one of the two mutating endpoints. *)
Definition is_create (c : Call) : bool :=
  match c with DelegatesCreate _ _ => true | _ => false end.

Definition is_delete (c : Call) : bool :=
  match c with DelegatesDelete _ _ => true | _ => false end.

Definition is_mutating (c : Call) : bool := is_create c || is_delete c.

(** The outside world.  Each answer may depend on the whole history of calls
    made before it, so one [Env] can fail the first call and accept the
    second, or fail them all. *)
Record Env : Type := mkEnv {
  fs_write : Trace -> Outcome unit;
  fs_read : Trace -> Outcome ServiceAccount;
  fs_exists : Trace -> bool;
  fs_unlink : Trace -> Outcome unit;
  exec : Trace -> string -> Outcome string;
    (* the child starts and the runtime prints this on its stderr, or the
       command fails *)
  get_access_token : Trace -> option string -> Outcome unit;
  get_profile : Trace -> option string -> Outcome unit;
  delegates_list : Trace -> option string -> Outcome (option (list Delegate));
  delegates_create : Trace -> option string -> option string -> Outcome Delegate;
  delegates_delete : Trace -> option string -> option string -> Outcome unit;
  inspect : Delegate -> string
    (* how console.log prints the response data of a create *)
}.

(** A computation reads the history so far and yields its outcome together
    with the calls it issued, in order. *)
Definition M (A : Type) : Type := Trace -> Outcome A * list Call.

Definition ret {A} (a : A) : M A := fun _ => (Returned a, []).

Definition throw {A} (e : Error) : M A := fun _ => (Thrown e, []).

Definition bind {A B} (m : M A) (f : A -> M B) : M B :=
  fun t =>
    match m t with
    | (Returned a, cs) =>
        let (r, cs') := f a (t ++ cs) in (r, cs ++ cs')
    | (Thrown e, cs) => (Thrown e, cs)
    end.

Declare Scope js_scope.
Delimit Scope js_scope with js.
Notation "x <- m ;; k" := (bind m (fun x => k))
  (at level 61, m at next level, right associativity) : js_scope.
Notation "m ;; k" := (bind m (fun _ => k))
  (at level 61, right associativity) : js_scope.
Local Open Scope js_scope.

(** The outcome of [m] as a value: the body of a [try]. *)
Definition attempt {A} (m : M A) : M (Outcome A) :=
  fun t => let (r, cs) := m t in (Returned r, cs).

(** [try { m } catch (e) { handler e }]. *)
Definition try_catch {A} (m : M A) (handler : Error -> M A) : M A :=
  r <- attempt m ;;
  match r with
  | Returned a => ret a
  | Thrown e => handler e
  end.

(** [try { m } finally { cleanup }]: the clean-up always runs, and an error
    it throws replaces the outcome of [m]. *)
Definition try_finally {A} (m : M A) (cleanup : M unit) : M A :=
  r <- attempt m ;;
  cleanup ;;
  match r with
  | Returned a => ret a
  | Thrown e => throw e
  end.

(** One call, answered by the environment from the history. *)
Definition call {A} (c : Call) (answer : Trace -> Outcome A) : M A :=
  fun t => (answer t, [c]).

Definition emit (c : Call) : M unit := fun _ => (Returned tt, [c]).

Definition consoleLog (text : string) : M unit := emit (ConsoleLog text).
Definition consoleError (text : string) : M unit := emit (ConsoleError text).

(** [console.error(label, error)]: the label, then the error, whose printed
    form is taken to be its message (the stack Node prints starts with
    it). *)
Definition consoleErrorWith (label : string) (e : Error) : M unit :=
  consoleError (label +++ " " +++ err_message e).

(** [if (error.response) console.error(label, error.response.data)]. *)
Definition consoleErrorResponse (label : string) (e : Error) : M unit :=
  match err_response e with
  | Some data => consoleError (label +++ " " +++ data)
  | None => ret tt
  end.

(** The loops [for (const x of xs) { ... results.push(...) ... }]: the body
    receives the array built so far and returns it after the iteration. *)
Fixpoint forOf {A B} (body : A -> list B -> M (list B))
    (xs : list A) (results : list B) : M (list B) :=
  match xs with
  | [] => ret results
  | x :: xs' => results' <- body x results ;; forOf body xs' results'
  end.

(** [results.push(r)]. *)
Definition push {B} (results : list B) (r : B) : list B := results ++ [r].

(** A failed result carrying the request's fields and a message. *)
Definition failure (user delegate : option string) (op : string)
    (msg : string) : OperationResult :=
  mkResult false user delegate (Some op) (Some msg) None None.

(** ** src/utils/gmail-integration.ts *)

Module GmailIntegration.
Section WithEnv.

Variable env : Env.

(** [new google.auth.JWT(serviceAccount.client_email, undefined,
    serviceAccount.private_key, scopes, userEmail)]: reading a property of
    [null] throws. *)
Definition newJWT (serviceAccount : ServiceAccount)
    (userEmail : option string) : M Gmail :=
  match serviceAccount with
  | JsonNull =>
      throw (mkError "Cannot read properties of null (reading 'client_email')" None)
  | JsonKey _ _ => ret (mkGmail userEmail)
  end.

(** The client, or [None] for the [null] the source returns. *)
Definition createGmailClient (serviceAccount : ServiceAccount)
    (userEmail : option string) : M (option Gmail) :=
  try_catch
    (auth <- newJWT serviceAccount userEmail ;;
     (* Verify token acquisition *)
     token <- attempt (call (GetAccessToken (subject auth))
                            (fun t => get_access_token env t (subject auth))) ;;
     match token with
     | Thrown tokenError =>
         consoleErrorWith "Error obtaining access token:" tokenError ;;
         consoleErrorResponse "Token error response:" tokenError ;;
         ret None
     | Returned _ =>
         (* Verify API access *)
         profile <- attempt (call (GetProfile (subject auth))
                                  (fun t => get_profile env t (subject auth))) ;;
         match profile with
         | Returned _ => ret (Some auth)
         | Thrown profileError =>
             consoleErrorWith "Error accessing Gmail API:" profileError ;;
             consoleErrorResponse "Profile error response:" profileError ;;
             ret None
         end
     end)
    (fun error =>
       consoleErrorWith "Error creating Gmail client:" error ;;
       ret None).

(** [delegate => ({ delegateEmail: delegate.delegateEmail || undefined,
    verificationStatus: delegate.verificationStatus || undefined })]. *)
Definition normalise (d : Delegate) : Delegate :=
  mkDelegate (Js.or_undefined (delegateEmail d))
             (Js.or_undefined (verificationStatus d)).

Definition listDelegates (gmail : Gmail) : M OperationResult :=
  try_catch
    (response <- call (DelegatesList (subject gmail))
                      (fun t => delegates_list env t (subject gmail)) ;;
     ret (mkResult true None None (Some "list")
            (Some "Delegates retrieved successfully")
            (Some match response with
                  | Some ds => map normalise ds
                  | None => []
                  end)
            None))
    (fun error =>
       consoleErrorWith "Error listing delegates:" error ;;
       consoleErrorResponse "List delegates error response:" error ;;
       ret (mkResult false None None (Some "list")
              (Some (Js.or_else (err_message error) "Error listing delegates"))
              None None)).

(** [listResult.delegates?.some((d) => d.delegateEmail === delegateEmail)];
    an undefined result is falsy. *)
Definition some_delegate (ds : option (list Delegate))
    (delegate : option string) : bool :=
  match ds with
  | Some l => existsb (fun d => Js.strict_eq (delegateEmail d) delegate) l
  | None => false
  end.

Definition saveServiceAccountToTemp (file : File) : M unit :=
  call FsWrite (fs_write env).

Definition processDelegateOperation (op : string)
    (user delegate : option string)
    (serviceAccountFile : option File) : M OperationResult :=
  try_catch
    (match serviceAccountFile with
     | None => throw (mkError "Service account file is required" None)
     | Some file =>
         saveServiceAccountToTemp file ;;
         try_finally
           (serviceAccount <- call FsRead (fs_read env) ;;
            gmail <- createGmailClient serviceAccount user ;;
            match gmail with
            | None => ret (failure user delegate op "Failed to create Gmail client")
            | Some gmail =>
                if op =? "list" then listDelegates gmail
                else
                  (* For add/remove operations, check if delegate exists *)
                  listResult <- listDelegates gmail ;;
                  if negb (success listResult) then ret listResult
                  else
                    let delegateExists :=
                      some_delegate (delegates listResult) delegate in
                    if op =? "add" then
                      if delegateExists then
                        ret (failure user delegate op
                               ("Delegate " +++ Js.show delegate +++ " already exists"))
                      else
                        call (DelegatesCreate (subject gmail) delegate)
                             (fun t => delegates_create env t (subject gmail) delegate) ;;
                        ret (mkResult true user delegate (Some op)
                               (Some ("Delegate " +++ Js.show delegate
                                      +++ " added successfully"))
                               None None)
                    else if op =? "remove" then
                      if negb delegateExists then
                        ret (failure user delegate op
                               ("Delegate " +++ Js.show delegate +++ " does not exist"))
                      else
                        call (DelegatesDelete (subject gmail) delegate)
                             (fun t => delegates_delete env t (subject gmail) delegate) ;;
                        ret (mkResult true user delegate (Some op)
                               (Some ("Delegate " +++ Js.show delegate
                                      +++ " removed successfully"))
                               None None)
                    else
                      ret (failure user delegate op ("Invalid operation: " +++ op))
            end)
           (* Clean up the temporary service account file *)
           (present <- call FsExists (fun t => Returned (fs_exists env t)) ;;
            if present then call FsUnlink (fs_unlink env) else ret tt)
     end)
    (fun error =>
       consoleErrorWith "Operation error:" error ;;
       ret (failure user delegate op
              (Js.or_else (err_message error)
                 "An error occurred during the operation"))).

Definition processBatchOperations (operations : list Request)
    (serviceAccountFile : option File) : M (list OperationResult) :=
  match serviceAccountFile with
  | None =>
      ret (map (fun op =>
                  failure (req_userEmail op) (req_delegateEmail op)
                    (req_operation op) "Service account file is required")
               operations)
  | Some _ =>
      forOf (fun op results =>
               result <- processDelegateOperation (req_operation op)
                           (req_userEmail op) (req_delegateEmail op)
                           serviceAccountFile ;;
               ret (push results result))
            operations []
  end.

End WithEnv.
End GmailIntegration.

(** ** src/createDelegate.ts and the delete script *)

Module Scripts.
Section WithEnv.

Variable env : Env.

Fixpoint forEach {A} (body : A -> M unit) (xs : list A) : M unit :=
  match xs with
  | [] => ret tt
  | x :: xs' => body x ;; forEach body xs'
  end.

(** [emails.split(",").map((email) => email.trim())]; the parameter is
    undefined when the parameter file has no such field. *)
Definition splitEmails (emails : option string) : M (list string) :=
  match emails with
  | Some s => ret (map Js.trim (Js.split comma s))
  | None =>
      throw (mkError "Cannot read properties of undefined (reading 'split')" None)
  end.

Definition addDelegateAccount (userEmails delegateEmails : option string)
    : M unit :=
  try_catch
    (userEmailArray <- splitEmails userEmails ;;
     delegateEmailArray <- splitEmails delegateEmails ;;
     consoleLog "Loading service account key file..." ;;
     key <- call FsRead (fs_read env) ;;
     consoleLog "Service account key file loaded successfully." ;;
     forEach (fun userEmail =>
       consoleLog ("Creating Gmail client for user: " +++ userEmail +++ "...") ;;
       gmail <- GmailIntegration.createGmailClient env key (Some userEmail) ;;
       match gmail with
       | None =>
           consoleError ("Failed to create Gmail client for " +++ userEmail
                         +++ ". Skipping.")
       | Some gmail =>
           consoleLog "Gmail client created successfully." ;;
           (* Process each delegate email one by one *)
           forEach (fun delegateEmail =>
             consoleLog ("Checking if delegate (" +++ delegateEmail
                         +++ ") already exists for user: " +++ userEmail +++ "...") ;;
             result <- GmailIntegration.listDelegates env gmail ;;
             let delegateExists :=
               success result &&
               GmailIntegration.some_delegate (delegates result) (Some delegateEmail) in
             if delegateExists then
               consoleLog ("Delegate " +++ delegateEmail +++ " already exists for "
                           +++ userEmail +++ ". Skipping.")
             else
               consoleLog ("Attempting to create delegate (" +++ delegateEmail
                           +++ ") for user: " +++ userEmail +++ "...") ;;
               try_catch
                 (res <- call (DelegatesCreate (subject gmail) (Some delegateEmail))
                           (fun t => delegates_create env t (subject gmail)
                                       (Some delegateEmail)) ;;
                  consoleLog ("Delegate " +++ delegateEmail
                              +++ " added successfully to " +++ userEmail +++ ".") ;;
                  consoleLog ("Response: " +++ inspect env res))
                 (fun error =>
                    consoleErrorWith ("Error adding delegate (" +++ delegateEmail
                                      +++ ") to " +++ userEmail +++ ":") error ;;
                    consoleErrorResponse "Error response:" error))
             delegateEmailArray
       end)
       userEmailArray)
    (fun error =>
       consoleErrorWith "Error adding user accounts as delegatees:" error ;;
       consoleErrorResponse "Error response:" error ;;
       consoleErrorWith "Error stack:" error).

Definition deleteDelegateAccount (userEmails delegateEmails : option string)
    : M unit :=
  try_catch
    (userEmailArray <- splitEmails userEmails ;;
     delegateEmailArray <- splitEmails delegateEmails ;;
     consoleLog "Loading service account key file..." ;;
     key <- call FsRead (fs_read env) ;;
     consoleLog "Service account key file loaded successfully." ;;
     forEach (fun userEmail =>
       consoleLog ("Creating Gmail client for user: " +++ userEmail +++ "...") ;;
       gmail <- GmailIntegration.createGmailClient env key (Some userEmail) ;;
       match gmail with
       | None =>
           consoleError ("Failed to create Gmail client for " +++ userEmail
                         +++ ". Skipping.")
       | Some gmail =>
           consoleLog "Gmail client created successfully." ;;
           forEach (fun delegateEmail =>
             consoleLog ("Checking if delegate (" +++ delegateEmail
                         +++ ") exists for user: " +++ userEmail +++ "...") ;;
             result <- GmailIntegration.listDelegates env gmail ;;
             let delegateExists :=
               success result &&
               GmailIntegration.some_delegate (delegates result) (Some delegateEmail) in
             if negb delegateExists then
               consoleLog ("Delegate " +++ delegateEmail +++ " does not exist for "
                           +++ userEmail +++ ". Skipping.")
             else
               consoleLog ("Attempting to delete delegate (" +++ delegateEmail
                           +++ ") for user: " +++ userEmail +++ "...") ;;
               try_catch
                 (call (DelegatesDelete (subject gmail) (Some delegateEmail))
                    (fun t => delegates_delete env t (subject gmail)
                                (Some delegateEmail)) ;;
                  consoleLog ("Delegate " +++ delegateEmail
                              +++ " deleted successfully from " +++ userEmail +++ "."))
                 (fun error =>
                    consoleErrorWith ("Error deleting delegate (" +++ delegateEmail
                                      +++ ") from " +++ userEmail +++ ":") error ;;
                    consoleErrorResponse "Error response:" error))
             delegateEmailArray
       end)
       userEmailArray)
    (fun error =>
       consoleErrorWith "Error deleting user accounts as delegates:" error ;;
       consoleErrorResponse "Error response:" error ;;
       consoleErrorWith "Error stack:" error).

(** The command-line entry of both scripts:
    [run(...).catch((error) => { console.error(...); process.exit(1) })].
    A thrown outcome stands for the exit with status 1. *)
Definition main (run : M unit) : M unit :=
  try_catch run
    (fun error =>
       consoleErrorWith "Script execution failed:" error ;;
       throw (mkError "process.exit(1)" None)).

End WithEnv.
End Scripts.

(** ** src/app/api/delegates/route.ts: the script-driven route *)

(** [{ ...r, userEmail, operation }] and
    [{ ...r, userEmail, delegateEmail, operation }]. *)
Definition spread (r : OperationResult) (user delegate : option string)
    (op : string) : OperationResult :=
  mkResult (success r) user delegate (Some op) (message r) (delegates r)
    (rawOutput r).

(** The multipart form the page posts. *)
Record FormData : Type := mkFormData {
  fd_serviceAccount : option File;
  fd_authMethod : option string;
  fd_operation : option string;
  fd_operations : option (list Request);   (* the JSON of the batch *)
  fd_userEmail : option string;
  fd_delegateEmail : option string
}.

Inductive Body : Type :=
| BatchBody (results : list OperationResult)   (* { success: true, results } *)
| ResultBody (result : OperationResult).

Record Response : Type := mkResponse {
  status : nat;
  body : Body
}.

(** [{ success: false, message }]. *)
Definition refusal (msg : string) : Body :=
  ResultBody (mkResult false None None None (Some msg) None None).

(** [!s] for a form field. *)
Definition missing (s : option string) : bool :=
  match s with Some v => negb (Js.truthy v) | None => true end.

Module Route.
Section WithEnv.

Variable env : Env.

Definition cleanupFile : M unit :=
  try_catch (call FsUnlink (fs_unlink env))
    (fun error => consoleErrorWith "Error cleaning up file:" error).

Definition createGmailClient (userEmail : option string) : M (option Gmail) :=
  try_catch
    (serviceAccount <- call FsRead (fs_read env) ;;
     auth <- GmailIntegration.newJWT serviceAccount userEmail ;;
     ret (Some auth))
    (fun error =>
       consoleErrorWith "Error creating Gmail client:" error ;;
       ret None).

(** Here the delegates are returned as the API sent them:
    [response.data.delegates || []]. *)
Definition listDelegates (gmail : Gmail) : M OperationResult :=
  try_catch
    (response <- call (DelegatesList (subject gmail))
                      (fun t => delegates_list env t (subject gmail)) ;;
     ret (mkResult true None None None None
            (Some match response with Some ds => ds | None => [] end)
            None))
    (fun error =>
       consoleErrorWith "Error listing delegates:" error ;;
       ret (mkResult false None None None
              (Some (Js.or_else (err_message error) "Error listing delegates"))
              None None)).

Definition line_break : string := String newline EmptyString.

(** What the child wrote on its standard output and standard error. *)
Definition stdout_of (cs : list Call) : string :=
  fold_right (fun c out =>
                match c with
                | ConsoleLog text => text +++ line_break +++ out
                | _ => out
                end) EmptyString cs.

Definition stderr_of (cs : list Call) : string :=
  fold_right (fun c out =>
                match c with
                | ConsoleError text => text +++ line_break +++ out
                | _ => out
                end) EmptyString cs.

(** [execPromise(`npx ts-node ${scriptPath} --params ${paramsPath}`)]: the
    promise is rejected when the command cannot run or exits with a
    non-zero status; otherwise it yields the captured [stdout] and
    [stderr], the latter starting with what the runtime itself printed. *)
Definition execPromise (script : string) (child : M unit)
    : M (string * string) :=
  fun t =>
    match exec env t script with
    | Thrown e => (Thrown e, [Exec script])
    | Returned warnings =>
        let (r, cs) := child (t ++ [Exec script]) in
        (match r with
         | Returned _ => Returned (stdout_of cs, warnings +++ stderr_of cs)
         | Thrown _ => Thrown (mkError ("Command failed: npx ts-node " +++ script) None)
         end,
         Exec script :: cs)
    end.

(** Add delegate operation using script *)
Definition addDelegate (userEmail delegateEmail : option string)
    : M OperationResult :=
  try_catch
    (call FsWrite (fs_write env) ;;
     try_finally
       (out <- execPromise "createDelegate.ts"
                 (Scripts.main (Scripts.addDelegateAccount env userEmail delegateEmail)) ;;
        let (stdout, stderr) := out in
        if Js.truthy stderr && negb (Js.includes stderr "ExperimentalWarning") then
          consoleError ("Script error: " +++ stderr) ;;
          ret (mkResult false None None None (Some "Error executing script")
                 None (Some stderr))
        else
          let success := negb (Js.includes stdout "Error") in
          ret (mkResult success None None None
                 (Some (if success
                        then "Delegate " +++ Js.show delegateEmail
                             +++ " added successfully to " +++ Js.show userEmail +++ "."
                        else "Failed to add delegate. Check the details for more information."))
                 None (Some stdout)))
       cleanupFile)
    (fun error =>
       ret (mkResult false None None None
              (Some (Js.or_else (err_message error) "Error adding delegate"))
              None None)).

(** Remove delegate operation using script *)
Definition removeDelegate (userEmail delegateEmail : option string)
    : M OperationResult :=
  try_catch
    (call FsWrite (fs_write env) ;;
     try_finally
       (out <- execPromise "deleteDelegate.ts"
                 (Scripts.main (Scripts.deleteDelegateAccount env userEmail delegateEmail)) ;;
        let (stdout, stderr) := out in
        if Js.truthy stderr && negb (Js.includes stderr "ExperimentalWarning") then
          consoleError ("Script error: " +++ stderr) ;;
          ret (mkResult false None None None (Some "Error executing script")
                 None (Some stderr))
        else
          let success := negb (Js.includes stdout "Error") in
          ret (mkResult success None None None
                 (Some (if success
                        then "Delegate " +++ Js.show delegateEmail
                             +++ " removed successfully from " +++ Js.show userEmail +++ "."
                        else "Failed to remove delegate. Check the details for more information."))
                 None (Some stdout)))
       cleanupFile)
    (fun error =>
       ret (mkResult false None None None
              (Some (Js.or_else (err_message error) "Error removing delegate"))
              None None)).

(** The list branch shared by [processBatch] and [POST]:
    [{ ...listResult, userEmail, operation: "list", message: ... }]. *)
Definition listed (listResult : OperationResult) (user : option string)
    : OperationResult :=
  mkResult (success listResult) user (delegateEmail_ listResult) (Some "list")
    (if success listResult then Some "Delegates retrieved successfully"
     else message listResult)
    (delegates listResult) (rawOutput listResult).

(** One iteration of the loop of [processBatch]: the results array after
    the request [op] has been handled. *)
Definition iteration (op : Request) (results : list OperationResult)
    : M (list OperationResult) :=
  let operation := req_operation op in
  let userEmail := req_userEmail op in
  let delegateEmail := req_delegateEmail op in
  if operation =? "list" then
    gmail <- createGmailClient userEmail ;;
    match gmail with
    | None =>
        ret (push results
               (mkResult false userEmail None (Some "list")
                  (Some "Failed to create Gmail client") None None))
    | Some gmail =>
        listResult <- listDelegates gmail ;;
        ret (push results (listed listResult userEmail))
    end
  else if operation =? "add" then
    addResult <- addDelegate userEmail delegateEmail ;;
    ret (push results (spread addResult userEmail delegateEmail "add"))
  else if operation =? "remove" then
    removeResult <- removeDelegate userEmail delegateEmail ;;
    ret (push results (spread removeResult userEmail delegateEmail "remove"))
  else
    ret (push results
           (failure userEmail delegateEmail operation
              ("Invalid operation: " +++ operation))).

(** Process batch operations *)
Definition processBatch (operations : list Request) : M (list OperationResult) :=
  forOf iteration operations [].

(** Main API handler *)
Definition POST (formData : FormData) : M Response :=
  consoleLog "Delegates API called with POST method" ;;
  try_catch
    (match fd_serviceAccount formData with
     | None => ret (mkResponse 400 (refusal "Service account file is required"))
     | Some file =>
         (* Save service account file temporarily *)
         call FsWrite (fs_write env) ;;
         try_finally
           (match fd_operations formData with
            | Some operations =>
                results <- processBatch operations ;;
                ret (mkResponse 200 (BatchBody results))
            | None =>
                let operation :=
                  match fd_operation formData with
                  | Some o => Js.or_else o "list"
                  | None => "list"
                  end in
                let userEmail := fd_userEmail formData in
                if missing userEmail then
                  ret (mkResponse 400 (refusal "User email is required"))
                else if operation =? "list" then
                  gmail <- createGmailClient userEmail ;;
                  match gmail with
                  | None =>
                      ret (mkResponse 500 (refusal "Failed to create Gmail client"))
                  | Some gmail =>
                      listResult <- listDelegates gmail ;;
                      ret (mkResponse 200 (ResultBody (listed listResult userEmail)))
                  end
                else if (operation =? "add") || (operation =? "remove") then
                  let delegateEmail := fd_delegateEmail formData in
                  if missing delegateEmail then
                    ret (mkResponse 400 (refusal "Delegate email is required"))
                  else if operation =? "add" then
                    addResult <- addDelegate userEmail delegateEmail ;;
                    ret (mkResponse 200
                           (ResultBody (spread addResult userEmail delegateEmail "add")))
                  else
                    removeResult <- removeDelegate userEmail delegateEmail ;;
                    ret (mkResponse 200
                           (ResultBody (spread removeResult userEmail delegateEmail "remove")))
                else
                  ret (mkResponse 400 (refusal "Invalid operation"))
            end)
           cleanupFile
     end)
    (fun error =>
       consoleErrorWith "API error:" error ;;
       ret (mkResponse 500
              (refusal (Js.or_else (err_message error) "An unexpected error occurred")))).

End WithEnv.
End Route.

(** ** The direct-API variant of the route *)

Module DirectRoute.
Section WithEnv.

Variable env : Env.

(** As in the script-driven route: the key is read and the JWT identity
    built, and no call is made to the service. *)
Definition createGmailClient (userEmail : option string) : M (option Gmail) :=
  try_catch
    (serviceAccount <- call FsRead (fs_read env) ;;
     auth <- GmailIntegration.newJWT serviceAccount userEmail ;;
     ret (Some auth))
    (fun error =>
       consoleErrorWith "Error creating Gmail client:" error ;;
       ret None).

Definition listDelegates (gmail : Gmail) : M OperationResult :=
  Route.listDelegates env gmail.

(** The list the existence check looks at: the guard is
    [listResult.success && listResult.delegates], and a failed listing
    falls through to the mutation. *)
Definition checked (listResult : OperationResult) : option (list Delegate) :=
  if success listResult then delegates listResult else None.

Definition some_delegate (ds : list Delegate) (delegate : option string) : bool :=
  existsb (fun d => Js.strict_eq (delegateEmail d) delegate) ds.

(** Add delegate operation using direct Gmail API *)
Definition addDelegateDirectly (gmail : Gmail) (delegate : option string)
    : M OperationResult :=
  try_catch
    ((* Check if delegate already exists *)
     listResult <- listDelegates gmail ;;
     if match checked listResult with
        | Some ds => some_delegate ds delegate
        | None => false
        end
     then
       ret (mkResult false None None None
              (Some ("Delegate " +++ Js.show delegate +++ " already exists"))
              None None)
     else
       (* Add delegate *)
       call (DelegatesCreate (subject gmail) delegate)
            (fun t => delegates_create env t (subject gmail) delegate) ;;
       ret (mkResult true None None None
              (Some ("Delegate " +++ Js.show delegate +++ " added successfully"))
              None None))
    (fun error =>
       consoleErrorWith "Error adding delegate:" error ;;
       ret (mkResult false None None None
              (Some (Js.or_else (err_message error) "Error adding delegate"))
              None None)).

(** Remove delegate operation using direct Gmail API *)
Definition removeDelegateDirectly (gmail : Gmail) (delegate : option string)
    : M OperationResult :=
  try_catch
    ((* Check if delegate exists *)
     listResult <- listDelegates gmail ;;
     if match checked listResult with
        | Some ds => negb (some_delegate ds delegate)
        | None => false
        end
     then
       ret (mkResult false None None None
              (Some ("Delegate " +++ Js.show delegate +++ " does not exist"))
              None None)
     else
       (* Remove delegate *)
       call (DelegatesDelete (subject gmail) delegate)
            (fun t => delegates_delete env t (subject gmail) delegate) ;;
       ret (mkResult true None None None
              (Some ("Delegate " +++ Js.show delegate +++ " removed successfully"))
              None None))
    (fun error =>
       consoleErrorWith "Error removing delegate:" error ;;
       ret (mkResult false None None None
              (Some (Js.or_else (err_message error) "Error removing delegate"))
              None None)).

(** One iteration of the loop of [processBatch]. *)
Definition iteration (op : Request) (results : list OperationResult)
    : M (list OperationResult) :=
  let operation := req_operation op in
  let userEmail := req_userEmail op in
  let delegateEmail := req_delegateEmail op in
  (* Create Gmail client for this user *)
  gmail <- createGmailClient userEmail ;;
  match gmail with
  | None =>
      ret (push results
             (mkResult false userEmail None (Some operation)
                (Some "Failed to create Gmail client") None None))
  | Some gmail =>
      if operation =? "list" then
        listResult <- listDelegates gmail ;;
        ret (push results (Route.listed listResult userEmail))
      else if operation =? "add" then
        addResult <- addDelegateDirectly gmail delegateEmail ;;
        ret (push results (spread addResult userEmail delegateEmail "add"))
      else if operation =? "remove" then
        removeResult <- removeDelegateDirectly gmail delegateEmail ;;
        ret (push results (spread removeResult userEmail delegateEmail "remove"))
      else
        ret (push results
               (failure userEmail delegateEmail operation
                  ("Invalid operation: " +++ operation)))
  end.

(** Process batch operations *)
Definition processBatch (operations : list Request) : M (list OperationResult) :=
  forOf iteration operations [].

End WithEnv.
End DirectRoute.

(** ** The service-account file manager and the single-operation handlers
       of the direct-API route *)

(** [ServiceAccountManager]: [saveFile] creates the temporary directory if
    needed and writes the file, [readFile] reads and parses it, and
    [cleanupFile] removes it if it exists.  As in
    [saveServiceAccountToTemp], writing the file (with its directory) is one
    call that may fail. *)
Module ServiceAccountManager.
Section WithEnv.

Variable env : Env.

Definition saveFile (file : File) : M unit := call FsWrite (fs_write env).

Definition readFile : M ServiceAccount := call FsRead (fs_read env).

Definition cleanupFile : M unit :=
  present <- call FsExists (fun t => Returned (fs_exists env t)) ;;
  if present then call FsUnlink (fs_unlink env) else ret tt.

End WithEnv.
End ServiceAccountManager.

(** The form posted to the direct handlers: [serviceAccountFile],
    [userEmail], [delegateEmail]. *)
Record DirectForm : Type := mkDirectForm {
  df_serviceAccountFile : option File;
  df_userEmail : option string;
  df_delegateEmail : option string
}.

(** [{ error }] (with the error text, undefined if the failed listing has no
    message) or [{ success: true, message }].  The diagnostic field
    [details] of the 500 answer (the stack of the error) is left out. *)
Inductive DirectBody : Type :=
| ErrorBody (error : option string)
| SuccessBody (message : string).

Record DirectResponse : Type := mkDirectResponse {
  dr_status : nat;
  dr_body : DirectBody
}.

Module DirectHandlers.
Section WithEnv.

Variable env : Env.

(** [export async function POST]: add one delegate. *)
Definition POST (formData : DirectForm) : M DirectResponse :=
  try_catch
    (match df_serviceAccountFile formData with
     | None => ret (mkDirectResponse 400 (ErrorBody (Some "Missing required fields")))
     | Some file =>
         if missing (df_userEmail formData) || missing (df_delegateEmail formData)
         then ret (mkDirectResponse 400 (ErrorBody (Some "Missing required fields")))
         else
           (* Save service account file temporarily *)
           ServiceAccountManager.saveFile env file ;;
           try_finally
             (serviceAccount <- ServiceAccountManager.readFile env ;;
              gmail <- GmailIntegration.createGmailClient env serviceAccount
                         (df_userEmail formData) ;;
              match gmail with
              | None =>
                  ret (mkDirectResponse 500
                         (ErrorBody (Some "Failed to create Gmail client")))
              | Some gmail =>
                  (* List existing delegates *)
                  listResult <- GmailIntegration.listDelegates env gmail ;;
                  if negb (success listResult) then
                    ret (mkDirectResponse 500 (ErrorBody (message listResult)))
                  else if GmailIntegration.some_delegate (delegates listResult)
                            (df_delegateEmail formData)
                  then
                    ret (mkDirectResponse 400
                           (ErrorBody (Some "Delegate already exists")))
                  else
                    (* Add delegate *)
                    call (DelegatesCreate (subject gmail) (df_delegateEmail formData))
                         (fun t => delegates_create env t (subject gmail)
                                     (df_delegateEmail formData)) ;;
                    ret (mkDirectResponse 200
                           (SuccessBody "Delegate added successfully"))
              end)
             (* Clean up service account file *)
             (ServiceAccountManager.cleanupFile env)
     end)
    (fun error =>
       consoleErrorWith "Error in POST /api/delegates:" error ;;
       ret (mkDirectResponse 500
              (ErrorBody (Some (Js.or_else (err_message error)
                                  "Internal server error"))))).

(** [export async function DELETE]: remove one delegate. *)
Definition DELETE (formData : DirectForm) : M DirectResponse :=
  try_catch
    (match df_serviceAccountFile formData with
     | None => ret (mkDirectResponse 400 (ErrorBody (Some "Missing required fields")))
     | Some file =>
         if missing (df_userEmail formData) || missing (df_delegateEmail formData)
         then ret (mkDirectResponse 400 (ErrorBody (Some "Missing required fields")))
         else
           ServiceAccountManager.saveFile env file ;;
           try_finally
             (serviceAccount <- ServiceAccountManager.readFile env ;;
              gmail <- GmailIntegration.createGmailClient env serviceAccount
                         (df_userEmail formData) ;;
              match gmail with
              | None =>
                  ret (mkDirectResponse 500
                         (ErrorBody (Some "Failed to create Gmail client")))
              | Some gmail =>
                  listResult <- GmailIntegration.listDelegates env gmail ;;
                  if negb (success listResult) then
                    ret (mkDirectResponse 500 (ErrorBody (message listResult)))
                  else if negb (GmailIntegration.some_delegate (delegates listResult)
                                  (df_delegateEmail formData))
                  then
                    ret (mkDirectResponse 400
                           (ErrorBody (Some "Delegate does not exist")))
                  else
                    (* Remove delegate *)
                    call (DelegatesDelete (subject gmail) (df_delegateEmail formData))
                         (fun t => delegates_delete env t (subject gmail)
                                     (df_delegateEmail formData)) ;;
                    ret (mkDirectResponse 200
                           (SuccessBody "Delegate removed successfully"))
              end)
             (ServiceAccountManager.cleanupFile env)
     end)
    (fun error =>
       consoleErrorWith "Error in DELETE /api/delegates:" error ;;
       ret (mkDirectResponse 500
              (ErrorBody (Some (Js.or_else (err_message error)
                                  "Internal server error"))))).

End WithEnv.
End DirectHandlers.

(** ** The form hook [useDelegateFormHandler] *)

Module Hook.

(** The [useState] cells of the hook. *)
Record State : Type := mkState {
  operation : string;
  userEmail : string;
  delegateEmail : string;
  batchMode : bool;
  batchEmails : string;
  isSubmitting : bool;
  showConfirmation : bool
}.

(** The options of the hook that [handleSubmit] reads.  [endpoint] is only
    handed on to [onSubmit], and the logging under [debugMode] is left
    out. *)
Record Options : Type := mkOptions {
  serviceAccountFile : option File;
  authMethod : option string
}.

Definition setShowConfirmation (st : State) (b : bool) : State :=
  mkState (operation st) (userEmail st) (delegateEmail st) (batchMode st)
    (batchEmails st) (isSubmitting st) b.

Definition setIsSubmitting (st : State) (b : bool) : State :=
  mkState (operation st) (userEmail st) (delegateEmail st) (batchMode st)
    (batchEmails st) b (showConfirmation st).

Definition setDelegateEmail (st : State) (d : string) : State :=
  mkState (operation st) (userEmail st) d (batchMode st)
    (batchEmails st) (isSubmitting st) (showConfirmation st).

Definition setBatchEmails (st : State) (b : string) : State :=
  mkState (operation st) (userEmail st) (delegateEmail st) (batchMode st)
    b (isSubmitting st) (showConfirmation st).

Definition toast (title description : string) : M unit :=
  emit (Toast title description).

(** The test in front of the confirmation dialog:
    [(operation === "remove" || (batchMode && batchEmails.includes("remove")))
     && !showConfirmation]. *)
Definition needsConfirmation (st : State) : bool :=
  ((operation st =? "remove")
   || (batchMode st && Js.includes (batchEmails st) "remove"))
  && negb (showConfirmation st).

(** The form data built for [onSubmit]; the batch travels as the JSON of
    the parsed operations. *)
Definition formDataOf (file : File) (safeAuthMethod : string) (st : State)
    : FormData :=
  if batchMode st then
    mkFormData (Some file) (Some safeAuthMethod) (Some (operation st))
      (Some (parseBatchOperations (batchEmails st))) None None
  else
    mkFormData (Some file) (Some safeAuthMethod) (Some (operation st))
      None (Some (userEmail st))
      (if Js.truthy (delegateEmail st) then Some (delegateEmail st) else None).

(** Unified submit handler.  The state returned is the one the next render
    sees.  [parseBatchOperations] cannot throw, so the [catch] around it
    (the toast "Invalid format") has no run. *)
Definition handleSubmit (onSubmit : FormData -> M unit) (options : Options)
    (st : State) : M State :=
  let safeAuthMethod :=
    match authMethod options with Some a => a | None => EmptyString end in
  if negb (Js.truthy safeAuthMethod) then
    toast "Authentication required" "Please authenticate first" ;;
    ret st
  else if negb (batchMode st) && negb (Js.truthy (userEmail st)) then
    toast "Missing information" "Please enter the mailbox email address" ;;
    ret st
  else if negb (batchMode st)
          && ((operation st =? "add") || (operation st =? "remove"))
          && negb (Js.truthy (delegateEmail st)) then
    toast "Missing information" "Please enter the delegate email address" ;;
    ret st
  else if batchMode st && negb (Js.truthy (Js.trim (batchEmails st))) then
    toast "Missing information" "Please enter batch operations" ;;
    ret st
  else if needsConfirmation st then
    (* For destructive operations, show confirmation dialog *)
    ret (setShowConfirmation st true)
  else
    match (safeAuthMethod =? "service-account"), serviceAccountFile options with
    | true, Some file =>
        sent <- attempt (onSubmit (formDataOf file safeAuthMethod st)) ;;
        match sent with
        | Returned _ =>
            (* Reset form if successful *)
            let st1 :=
              if batchMode st then setBatchEmails st EmptyString
              else if negb (operation st =? "list")
                   then setDelegateEmail st EmptyString
                   else st in
            ret (setIsSubmitting (setShowConfirmation st1 false) false)
        | Thrown error =>
            consoleErrorWith "Error submitting form:" error ;;
            ret (setIsSubmitting st false)
        end
    | _, _ =>
        toast "Missing service account" "Service account file is required" ;;
        ret (setIsSubmitting st false)
    end.

End Hook.

(** ** Specification vocabulary *)

(** The outcomes of running [one] on each request in turn, each at the
    history its predecessors left. *)
Fixpoint run_each (one : Request -> M OperationResult) (ops : list Request)
    (t : Trace) : list (Outcome OperationResult) :=
  match ops with
  | [] => []
  | op :: ops' =>
      let (r, cs) := one op t in r :: run_each one ops' (t ++ cs)
  end.

(** The turns of a loop: its body run on each item in order, with an empty
    array, each at the history the turns before it left; for each turn, what
    the body returns and the calls it issues. *)
Fixpoint turns {A B} (body : A -> list B -> M (list B)) (xs : list A)
    (t : Trace) : list (Outcome (list B) * list Call) :=
  match xs with
  | [] => []
  | x :: xs' =>
      let run := body x [] t in
      run :: turns body xs' (t ++ snd run)
  end.

(** Only white space, the strings [trim] empties. *)
Fixpoint all_space (s : string) : bool :=
  match s with
  | EmptyString => true
  | String c s' => Js.is_space c && all_space s'
  end.

(** [m] never throws, whatever the history and the environment's answers,
    and what it returns satisfies [Q]. *)
Definition yields {A} (m : M A) (Q : A -> Prop) : Prop :=
  forall t, exists a, fst (m t) = Returned a /\ Q a.

(** The array [acc] with the returned array appended. *)
Definition extend {B} (acc : list B) (o : Outcome (list B)) : Outcome (list B) :=
  match o with
  | Returned l => Returned (acc ++ l)
  | Thrown e => Thrown e
  end.

(** What is read off an outcome, if it is a returned value. *)
Definition returned {A B} (f : A -> B) (o : Outcome A) : option B :=
  match o with
  | Returned a => Some (f a)
  | Thrown _ => None
  end.

(** The verdict of a result: its [success] and its [message]. *)
Definition verdict (r : OperationResult) : bool * option string :=
  (success r, message r).

(** Every call [m] issues, at whatever history, satisfies [P]. *)
Definition emits {A} (P : Call -> Prop) (m : M A) : Prop :=
  forall t, Forall P (snd (m t)).

(** A call to the listing endpoint. *)
Definition is_list (c : Call) : bool :=
  match c with DelegatesList _ => true | _ => false end.

(** A call that, if it reaches the remote service, does so impersonating
    [who]. *)
Definition acts_as (who : option string) (c : Call) : Prop :=
  match c with
  | GetAccessToken w | GetProfile w | DelegatesList w
  | DelegatesCreate w _ | DelegatesDelete w _ => w = who
  | _ => True
  end.

(** A character that is neither the separator of fields nor of lines. *)
Definition plain (c : ascii) : bool :=
  negb (Ascii.eqb c comma) && negb (Ascii.eqb c newline).

(** A field of a batch line: no comma and no line break in it. *)
Fixpoint field (s : string) : bool :=
  match s with
  | EmptyString => true
  | String c s' => plain c && field s'
  end.

(** A result carries the mailbox and the kind of its request. *)
Definition tagged (op : Request) (r : OperationResult) : Prop :=
  userEmail r = req_userEmail op /\ operation r = Some (req_operation op).

(** The four input checks at the head of [handleSubmit] all pass. *)
Definition inputsComplete (options : Hook.Options) (st : Hook.State) : bool :=
  match Hook.authMethod options with
  | Some a => Js.truthy a
  | None => false
  end
  && (if Hook.batchMode st then Js.truthy (Js.trim (Hook.batchEmails st))
      else Js.truthy (Hook.userEmail st)
           && (negb ((Hook.operation st =? "add") || (Hook.operation st =? "remove"))
               || Js.truthy (Hook.delegateEmail st))).

(** The key file a submission can send: the uploaded file, under the
    authentication method "service-account". *)
Definition credential (options : Hook.Options) : option File :=
  match Hook.authMethod options with
  | Some a => if a =? "service-account" then Hook.serviceAccountFile options else None
  | None => None
  end.

(** A create call answers an add request of the batch, a delete call a
    remove request. *)
Definition requested (operations : list Request) (c : Call) : Prop :=
  (is_create c = true ->
   exists op, In op operations /\ req_operation op = "add")
  /\ (is_delete c = true ->
      exists op, In op operations /\ req_operation op = "remove").

(** What [m] returns, when it returns, satisfies [Q]. *)
Definition returns {A} (m : M A) (Q : A -> Prop) : Prop :=
  forall t a, fst (m t) = Returned a -> Q a.

(** A toast shown to the user. *)
Definition is_toast (c : Call) : bool :=
  match c with Toast _ _ => true | _ => false end.

(** Console output. *)
Definition is_console (c : Call) : bool :=
  match c with ConsoleLog _ | ConsoleError _ => true | _ => false end.

(** The first call of the route's [POST]: its log line. *)
Definition announced : Call := ConsoleLog "Delegates API called with POST method".

(** An [onSubmit] callback that posts the form to the handler of
    [/api/delegates], the default [endpoint] of the hook; the hook does not
    see the response. *)
Definition postTo (env : Env) (formData : FormData) : M unit :=
  _ <- Route.POST env formData ;; ret tt.

(** ** Environments used in the examples *)

Module Examples.

Definition always {A} (a : A) : Trace -> Outcome A := fun _ => Returned a.

Definition key : ServiceAccount :=
  JsonKey (Js.Str "engine@project.iam.gserviceaccount.com") (Js.Str "-----KEY-----").

Definition created (d : option string) : Delegate :=
  mkDelegate (match d with Some s => Js.Str s | None => Js.Undefined end)
             (Js.Str "accepted").

Definition printed (d : Delegate) : string :=
  "{ delegateEmail: '"
  +++ match delegateEmail d with Js.Str s => s | _ => "undefined" end
  +++ "', verificationStatus: 'accepted' }".

(** Every call succeeds, and every mailbox has the delegates [ds]. *)
Definition healthy (ds : list Delegate) : Env :=
  mkEnv (always tt) (always key) (fun _ => true) (always tt)
    (fun _ _ => Returned EmptyString)
    (fun _ _ => Returned tt) (fun _ _ => Returned tt)
    (fun _ _ => Returned (Some ds))
    (fun _ _ d => Returned (created d))
    (fun _ _ _ => Returned tt)
    printed.

(** The listing fails (a network error); everything else succeeds. *)
Definition listing_down : Env :=
  mkEnv (always tt) (always key) (fun _ => true) (always tt)
    (fun _ _ => Returned EmptyString)
    (fun _ _ => Returned tt) (fun _ _ => Returned tt)
    (fun _ _ => Thrown (mkError "connect ETIMEDOUT" None))
    (fun _ _ d => Returned (created d))
    (fun _ _ _ => Returned tt)
    printed.

(** The identity cannot be authenticated: every call to the service is
    refused.  The local file system works. *)
Definition unauthorised : Env :=
  let refused := mkError "unauthorized_client" (Some "invalid_grant") in
  mkEnv (always tt) (always key) (fun _ => true) (always tt)
    (fun _ _ => Returned EmptyString)
    (fun _ _ => Thrown refused) (fun _ _ => Thrown refused)
    (fun _ _ => Thrown refused)
    (fun _ _ _ => Thrown refused)
    (fun _ _ _ => Thrown refused)
    printed.

Definition shared : string := "shared@example.com".
Definition user : string := "user@example.com".

(** [user] is an accepted delegate. *)
Definition accepted : list Delegate :=
  [mkDelegate (Js.Str user) (Js.Str "accepted")].

Definition upload : File := mkFile "{ ... }".

Definition options : Hook.Options :=
  Hook.mkOptions (Some upload) (Some "service-account").

(** The form in batch mode, fresh, with the given text. *)
Definition batchForm (text : string) : Hook.State :=
  Hook.mkState "list" EmptyString EmptyString true text false false.

End Examples.

(** Further environments. *)
Module Scenarios.

(** The runtime prints an experimental warning on the child's stderr, and
    the service refuses every creation. *)
Definition noisy_runtime : Env :=
  mkEnv (Examples.always tt) (Examples.always Examples.key) (fun _ => true)
    (Examples.always tt)
    (fun _ _ => Returned "(node:4242) ExperimentalWarning: Custom ESM Loaders is an experimental feature")
    (fun _ _ => Returned tt) (fun _ _ => Returned tt)
    (fun _ _ => Returned (Some []))
    (fun _ _ _ => Thrown (mkError "Quota exceeded" None))
    (fun _ _ _ => Returned tt)
    Examples.printed.

(** Every call succeeds and no mailbox has a delegate, but the temporary
    key file cannot be removed. *)
Definition cleanup_fails : Env :=
  mkEnv (Examples.always tt) (Examples.always Examples.key) (fun _ => true)
    (fun _ => Thrown (mkError "EPERM: operation not permitted, unlink" None))
    (fun _ _ => Returned EmptyString)
    (fun _ _ => Returned tt) (fun _ _ => Returned tt)
    (fun _ _ => Returned (Some []))
    (fun _ _ d => Returned (Examples.created d))
    (fun _ _ _ => Returned tt)
    Examples.printed.

(** The key file cannot be parsed. *)
Definition bad_key : Env :=
  mkEnv (Examples.always tt)
    (fun _ => Thrown (mkError "Unexpected token h in JSON at position 0" None))
    (fun _ => true) (Examples.always tt)
    (fun _ _ => Returned EmptyString)
    (fun _ _ => Returned tt) (fun _ _ => Returned tt)
    (fun _ _ => Returned (Some []))
    (fun _ _ d => Returned (Examples.created d))
    (fun _ _ _ => Returned tt)
    Examples.printed.

End Scenarios.

(** ** Proof automation *)

(** Symbolic execution of a computation: unfold the combinators, then let
    the answers of the environment decide the branches. *)
Ltac unfold_program :=
  cbv [GmailIntegration.processDelegateOperation
       GmailIntegration.saveServiceAccountToTemp
       GmailIntegration.createGmailClient GmailIntegration.newJWT
       GmailIntegration.listDelegates
       try_catch try_finally attempt bind call ret throw emit
       consoleErrorWith consoleErrorResponse consoleError subject].

Ltac reduce :=
  cbn -[String.append Js.includes Js.or_else GmailIntegration.some_delegate
        GmailIntegration.normalise].

Ltac no_such_call :=
  repeat (apply Forall_cons; [reflexivity|]); apply Forall_nil.

(** Case analysis on what the environment answers, one scrutinee at a
    time, innermost first. *)
Ltac branch :=
  match goal with
  | |- context [match ?x with _ => _ end] =>
      lazymatch x with
      | context [match _ with _ => _ end] => fail
      | _ => destruct x eqn:?
      end
  end.

Ltac run_cases := repeat (reduce; rewrite ?app_nil_r; try branch).

(** Turn the tests on the kind of operation into equations. *)
Ltac kinds :=
  repeat match goal with
    | H : (_ =? _) = true |- _ => apply String.eqb_eq in H
    end;
  subst; try discriminate;
  rewrite ?String.eqb_refl in *; try discriminate;
  repeat match goal with
    | H : (?a =? ?b) = false |- _ => rewrite H; clear H
    end.

(** * Properties *)

(** ** Strings *)

Section Strings.

Lemma append_empty_r (s : string) : s +++ EmptyString = s.
Proof. induction s as [|c s IH]; simpl; [reflexivity | now rewrite IH]. Qed.

Lemma append_assoc (a b c : string) : (a +++ b) +++ c = a +++ (b +++ c).
Proof. induction a as [|x a IH]; simpl; [reflexivity | now rewrite IH]. Qed.

Lemma prefix_append (t r : string) : String.prefix t (t +++ r) = true.
Proof.
  induction t as [|c t IH]; simpl.
  - destruct r; reflexivity.
  - destruct (ascii_dec c c) as [_|N]; [exact IH | now elim N].
Qed.

Lemma Infix_refl (s : string) : Infix s s.
Proof. exists EmptyString, EmptyString. simpl. now rewrite append_empty_r. Qed.

Lemma Infix_trans (a b c : string) : Infix a b -> Infix b c -> Infix a c.
Proof.
  intros (p1 & q1 & ->) (p2 & q2 & ->).
  exists (p2 +++ p1), (q1 +++ q2).
  now rewrite !append_assoc.
Qed.

Lemma Infix_cons (t s : string) (c : ascii) : Infix t s -> Infix t (String c s).
Proof. intros (p & q & ->). now exists (String c p), q. Qed.

Lemma includes_prefix (s t : string) :
  String.prefix t s = true -> Js.includes s t = true.
Proof. intros H. destruct s; cbn [Js.includes]; rewrite H; reflexivity. Qed.

(** [includes] finds every occurrence. *)
Lemma includes_complete (s t : string) : Infix t s -> Js.includes s t = true.
Proof.
  intros (pre & post & ->).
  induction pre as [|c pre IH].
  - cbn [String.append]. apply includes_prefix, prefix_append.
  - cbn [String.append Js.includes]. rewrite IH. apply orb_true_r.
Qed.

Lemma split_not_nil (sep : ascii) (s : string) : Js.split sep s <> [].
Proof.
  induction s as [|c s IH]; simpl; [discriminate|].
  destruct (Ascii.eqb c sep); [discriminate|].
  destruct (Js.split sep s); discriminate.
Qed.

(** Every piece of a split occurs in the string. *)
Lemma split_Infix (sep : ascii) (s w : string) :
  In w (Js.split sep s) -> Infix w s.
Proof.
  revert w. induction s as [|c s IH]; simpl; intros w H.
  - destruct H as [<-|[]]. apply Infix_refl.
  - destruct (Ascii.eqb c sep).
    + destruct H as [<-|H].
      * exists EmptyString, (String c s). reflexivity.
      * apply Infix_cons, IH, H.
    + destruct (Js.split sep s) as [|w0 ws] eqn:E.
      * now elim (split_not_nil sep s).
      * destruct H as [<-|H].
        -- destruct (IH w0 (or_introl eq_refl)) as (p & q & Hs).
           (* the first piece starts the string *)
           assert (Hp : exists q', s = w0 +++ q').
           { clear -E. revert w0 ws E.
             induction s as [|d s IHs]; simpl; intros w0 ws E.
             - injection E as <- _. now exists EmptyString.
             - destruct (Ascii.eqb d sep).
               + injection E as <- _. now exists (String d s).
               + destruct (Js.split sep s) as [|v vs] eqn:E'.
                 * injection E as <- _. now elim (split_not_nil sep s).
                 * injection E as <- _.
                   destruct (IHs v vs eq_refl) as (q' & ->).
                   now exists q'. }
           destruct Hp as (q' & ->).
           now exists EmptyString, q'.
        -- apply Infix_cons, IH. now right.
Qed.

Lemma trimStart_Infix (s : string) : Infix (Js.trimStart s) s.
Proof.
  induction s as [|c s IH]; simpl; [apply Infix_refl|].
  destruct (Js.is_space c); [now apply Infix_cons | apply Infix_refl].
Qed.

Lemma trimEnd_prefix (s : string) : exists post, s = Js.trimEnd s +++ post.
Proof.
  induction s as [|c s (post & IH)]; simpl; [now exists EmptyString|].
  destruct (Js.trimEnd s) eqn:E.
  - destruct (Js.is_space c).
    + now exists (String c s).
    + exists s. reflexivity.
  - exists post. simpl. f_equal. exact IH.
Qed.

Lemma trim_Infix (s : string) : Infix (Js.trim s) s.
Proof.
  unfold Js.trim. apply Infix_trans with (Js.trimStart s).
  - destruct (trimEnd_prefix (Js.trimStart s)) as (post & H).
    now exists EmptyString, post.
  - apply trimStart_Infix.
Qed.

Lemma all_space_append (a b : string) :
  all_space (a +++ b) = all_space a && all_space b.
Proof.
  induction a as [|c a IH]; simpl; [reflexivity|].
  now rewrite IH, andb_assoc.
Qed.

Lemma all_space_Infix (w s : string) :
  Infix w s -> all_space s = true -> all_space w = true.
Proof.
  intros (p & q & ->). rewrite !all_space_append.
  intros H. apply andb_prop in H as [_ H]. now apply andb_prop in H as [H _].
Qed.

Lemma trimStart_all_space (s : string) :
  all_space s = true -> Js.trimStart s = EmptyString.
Proof.
  induction s as [|c s IH]; simpl; [reflexivity|].
  intros H. apply andb_prop in H as [-> H]. auto.
Qed.

(** A string that is all white space trims to the empty string. *)
Lemma trim_all_space (s : string) :
  all_space s = true -> Js.truthy (Js.trim s) = false.
Proof.
  intros H. unfold Js.trim. now rewrite trimStart_all_space.
Qed.

Lemma trimEnd_empty (s : string) :
  Js.trimEnd s = EmptyString -> all_space s = true.
Proof.
  induction s as [|c s IH]; simpl; [reflexivity|].
  destruct (Js.trimEnd s); [|discriminate].
  destruct (Js.is_space c); [auto | discriminate].
Qed.

Lemma trimStart_empty (s : string) :
  all_space (Js.trimStart s) = true -> all_space s = true.
Proof.
  induction s as [|c s IH]; simpl; [reflexivity|].
  destruct (Js.is_space c) eqn:E; simpl; [auto|].
  rewrite E. discriminate.
Qed.

(** Conversely, what trims to the empty string is all white space. *)
Lemma trim_empty (s : string) :
  Js.truthy (Js.trim s) = false -> all_space s = true.
Proof.
  unfold Js.trim. intros H.
  apply trimStart_empty, trimEnd_empty.
  destruct (Js.trimEnd (Js.trimStart s)); [reflexivity | discriminate].
Qed.

(** A text with a non-blank line is not blank. *)
Lemma nonblank_line (sep : ascii) (text line : string) :
  In line (Js.split sep text) ->
  Js.truthy (Js.trim line) = true ->
  Js.truthy (Js.trim text) = true.
Proof.
  intros Hin Hline.
  destruct (Js.truthy (Js.trim text)) eqn:E; [reflexivity|].
  apply trim_empty in E.
  apply (all_space_Infix (split_Infix _ _ _ Hin)) in E.
  apply trim_all_space in E. congruence.
Qed.

(** The kind of a parsed line occurs in the line. *)
Lemma parseLine_kind_Infix (line : string) :
  Infix (req_operation (parseLine line)) line.
Proof.
  unfold parseLine. simpl.
  destruct (Js.split comma line) as [|w ws] eqn:E.
  - now elim (split_not_nil comma line).
  - simpl. apply Infix_trans with w; [apply trim_Infix|].
    apply split_Infix with comma. rewrite E. now left.
Qed.

(** A batch from which a request of some kind is parsed contains the name
    of that kind, and is not blank. *)
Lemma parsed_kind_in_text (batch : string) (r : Request) :
  In r (parseBatchOperations batch) ->
  Js.includes batch (req_operation r) = true
  /\ Js.truthy (Js.trim batch) = true.
Proof.
  unfold parseBatchOperations. intros H.
  apply in_map_iff in H as (line & <- & H).
  apply filter_In in H as [Hin Hline].
  split.
  - apply includes_complete.
    apply Infix_trans with line; [apply parseLine_kind_Infix|].
    now apply split_Infix with newline.
  - now apply nonblank_line with newline line.
Qed.

End Strings.

(** ** Computations that always return *)

Section Yields.

Context {A B : Type}.

Lemma yields_ret (a : A) (Q : A -> Prop) : Q a -> yields (ret a) Q.
Proof. intros H t. now exists a. Qed.

Lemma yields_weaken (m : M A) (P Q : A -> Prop) :
  yields m P -> (forall a, P a -> Q a) -> yields m Q.
Proof. intros H W t. destruct (H t) as (a & E & Pa). exists a. auto. Qed.

Lemma yields_bind (m : M A) (f : A -> M B) (P : A -> Prop) (Q : B -> Prop) :
  yields m P -> (forall a, P a -> yields (f a) Q) -> yields (bind m f) Q.
Proof.
  intros Hm Hf t. unfold bind.
  destruct (Hm t) as (a & E & Pa).
  destruct (m t) as [r cs]. simpl in E. subst r.
  destruct (Hf a Pa (t ++ cs)) as (b & E' & Qb).
  destruct (f a (t ++ cs)) as [r' cs']. simpl in *. now exists b.
Qed.

Lemma yields_attempt (m : M A) : yields (attempt m) (fun _ => True).
Proof. intros t. unfold attempt. destruct (m t) as [r cs]. now exists r. Qed.

(** A [try] whose handler always returns always returns. *)
Lemma yields_try_catch (m : M A) (handler : Error -> M A) (Q : A -> Prop) :
  (forall t a, fst (m t) = Returned a -> Q a) ->
  (forall e, yields (handler e) Q) ->
  yields (try_catch m handler) Q.
Proof.
  intros Hm Hh t. unfold try_catch, bind, attempt.
  destruct (m t) as [[a|e] cs] eqn:E; simpl.
  - exists a. split; [reflexivity|]. apply (Hm t). now rewrite E.
  - destruct (Hh e (t ++ cs)) as (a & E' & Qa).
    destruct (handler e (t ++ cs)) as [r' cs']. simpl in *. now exists a.
Qed.

End Yields.

Lemma yields_emit (c : Call) : yields (emit c) (fun _ => True).
Proof. intros t. now exists tt. Qed.

Lemma yields_consoleErrorWith (label : string) (e : Error) :
  yields (consoleErrorWith label e) (fun _ => True).
Proof. apply yields_emit. Qed.

(** A handler that logs and returns a value. *)
Lemma yields_log_ret {A} (label : string) (e : Error) (a : A) (Q : A -> Prop) :
  Q a -> yields (consoleErrorWith label e ;; ret a) Q.
Proof.
  intros H. eapply yields_bind; [apply yields_consoleErrorWith|].
  intros _ _. now apply yields_ret.
Qed.

(** A loop whose body always pushes one result related to its item returns
    one result per item, in the order of the items. *)
Lemma forOf_pushes {A B} (body : A -> list B -> M (list B)) (P : A -> B -> Prop) :
  (forall x acc, yields (body x acc) (fun l => exists r, l = push acc r /\ P x r)) ->
  forall xs acc,
    yields (forOf body xs acc) (fun l => exists rs, l = acc ++ rs /\ Forall2 P xs rs).
Proof.
  intros Hbody xs. induction xs as [|x xs IH]; intros acc; simpl.
  - apply yields_ret. exists []. now rewrite app_nil_r.
  - eapply yields_bind; [apply Hbody|].
    intros l (r & -> & Pr).
    eapply yields_weaken; [apply IH|].
    intros l (rs & -> & F). exists (r :: rs). split.
    + unfold push. now rewrite <- app_assoc.
    + now constructor.
Qed.

(** ** No processor lets an error escape *)

Section Totality.

Variable env : Env.

Lemma processDelegateOperation_returns op user delegate file :
  yields (GmailIntegration.processDelegateOperation env op user delegate file)
         (fun _ => True).
Proof.
  apply yields_try_catch; [trivial|].
  intros e. now apply yields_log_ret.
Qed.

Lemma route_createGmailClient_returns user :
  yields (Route.createGmailClient env user) (fun _ => True).
Proof.
  apply yields_try_catch; [trivial|].
  intros e. now apply yields_log_ret.
Qed.

Lemma route_listDelegates_returns gmail :
  yields (Route.listDelegates env gmail) (fun _ => True).
Proof.
  apply yields_try_catch; [trivial|].
  intros e. now apply yields_log_ret.
Qed.

Lemma addDelegate_returns user delegate :
  yields (Route.addDelegate env user delegate) (fun _ => True).
Proof.
  apply yields_try_catch; [trivial|].
  intros e. now apply yields_ret.
Qed.

Lemma removeDelegate_returns user delegate :
  yields (Route.removeDelegate env user delegate) (fun _ => True).
Proof.
  apply yields_try_catch; [trivial|].
  intros e. now apply yields_ret.
Qed.

Lemma direct_createGmailClient_returns user :
  yields (DirectRoute.createGmailClient env user) (fun _ => True).
Proof.
  apply yields_try_catch; [trivial|].
  intros e. now apply yields_log_ret.
Qed.

Lemma addDelegateDirectly_returns gmail delegate :
  yields (DirectRoute.addDelegateDirectly env gmail delegate) (fun _ => True).
Proof.
  apply yields_try_catch; [trivial|].
  intros e. now apply yields_log_ret.
Qed.

Lemma removeDelegateDirectly_returns gmail delegate :
  yields (DirectRoute.removeDelegateDirectly env gmail delegate) (fun _ => True).
Proof.
  apply yields_try_catch; [trivial|].
  intros e. now apply yields_log_ret.
Qed.

(** Every iteration of the route's loop pushes one result, tagged with the
    mailbox and the kind of its request. *)
Lemma route_processBatch_tagged ops :
  yields (Route.processBatch env ops) (fun rs => Forall2 tagged ops rs).
Proof.
  unfold Route.processBatch.
  eapply yields_weaken; [apply forOf_pushes with (P := tagged)|].
  - intros op acc. unfold Route.iteration. cbv beta zeta.
    destruct (req_operation op =? "list") eqn:El.
    { apply String.eqb_eq in El.
      eapply yields_bind; [apply route_createGmailClient_returns|].
      intros [gmail|] _.
      - eapply yields_bind; [apply route_listDelegates_returns|].
        intros r _. apply yields_ret. eexists. split; [reflexivity|].
        split; simpl; congruence.
      - apply yields_ret. eexists. split; [reflexivity|].
        split; simpl; congruence. }
    destruct (req_operation op =? "add") eqn:Ea.
    { apply String.eqb_eq in Ea.
      eapply yields_bind; [apply addDelegate_returns|].
      intros r _. apply yields_ret. eexists. split; [reflexivity|].
      split; simpl; congruence. }
    destruct (req_operation op =? "remove") eqn:Er.
    { apply String.eqb_eq in Er.
      eapply yields_bind; [apply removeDelegate_returns|].
      intros r _. apply yields_ret. eexists. split; [reflexivity|].
      split; simpl; congruence. }
    apply yields_ret. eexists. split; [reflexivity|]. split; reflexivity.
  - intros l (rs & -> & F). exact F.
Qed.

Lemma direct_processBatch_tagged ops :
  yields (DirectRoute.processBatch env ops) (fun rs => Forall2 tagged ops rs).
Proof.
  unfold DirectRoute.processBatch.
  eapply yields_weaken; [apply forOf_pushes with (P := tagged)|].
  - intros op acc. unfold DirectRoute.iteration. cbv beta zeta.
    eapply yields_bind; [apply direct_createGmailClient_returns|].
    intros [gmail|] _.
    2:{ apply yields_ret. eexists. split; [reflexivity|]. split; reflexivity. }
    destruct (req_operation op =? "list") eqn:El.
    { apply String.eqb_eq in El.
      eapply yields_bind; [apply route_listDelegates_returns|].
      intros r _. apply yields_ret. eexists. split; [reflexivity|].
      split; simpl; congruence. }
    destruct (req_operation op =? "add") eqn:Ea.
    { apply String.eqb_eq in Ea.
      eapply yields_bind; [apply addDelegateDirectly_returns|].
      intros r _. apply yields_ret. eexists. split; [reflexivity|].
      split; simpl; congruence. }
    destruct (req_operation op =? "remove") eqn:Er.
    { apply String.eqb_eq in Er.
      eapply yields_bind; [apply removeDelegateDirectly_returns|].
      intros r _. apply yields_ret. eexists. split; [reflexivity|].
      split; simpl; congruence. }
    apply yields_ret. eexists. split; [reflexivity|]. split; reflexivity.
  - intros l (rs & -> & F). exact F.
Qed.

(** Without a key file a single operation fails with the message of the
    batch short cut. *)
Lemma processDelegateOperation_without_file op user delegate t :
  fst (GmailIntegration.processDelegateOperation env op user delegate None t)
  = Returned (failure user delegate op "Service account file is required").
Proof. reflexivity. Qed.

(** The loop of [processBatchOperations] collects, in order, what
    [processDelegateOperation] returns for each request. *)
Lemma processBatchOperations_loop file ops :
  forall acc t,
    exists rs,
      fst (forOf (fun op results =>
                    result <- GmailIntegration.processDelegateOperation env
                                (req_operation op) (req_userEmail op)
                                (req_delegateEmail op) file ;;
                    ret (push results result))
                 ops acc t)
      = Returned (acc ++ rs)
      /\ map Returned rs
         = run_each (fun op =>
                       GmailIntegration.processDelegateOperation env
                         (req_operation op) (req_userEmail op)
                         (req_delegateEmail op) file)
                    ops t.
Proof.
  induction ops as [|op ops IH]; intros acc t.
  - exists []. simpl. now rewrite app_nil_r.
  - destruct (processDelegateOperation_returns (req_operation op)
                (req_userEmail op) (req_delegateEmail op) file t)
      as (r & E & _).
    cbn [forOf run_each]. unfold bind at 1. unfold bind at 1.
    destruct (GmailIntegration.processDelegateOperation env (req_operation op)
                (req_userEmail op) (req_delegateEmail op) file t)
      as [o cs] eqn:E1.
    simpl in E. subst o. cbn [ret]. rewrite app_nil_r.
    destruct (IH (push acc r) (t ++ cs)) as (rs & E2 & E3).
    destruct (forOf _ ops (push acc r) (t ++ cs)) as [o2 cs2].
    simpl in E2. subst o2.
    exists (r :: rs). split.
    + simpl. unfold push. now rewrite <- app_assoc.
    + simpl. now rewrite E3.
Qed.

End Totality.

(** ** C10: a batch without a key file *)

(** C10. Without a service account file, [processBatchOperations] returns one
    result per operation, each with [success = false] and the message
    "Service account file is required", and issues no call at all: neither
    to the remote service nor to anything else. *)
Theorem processBatchOperations_requires_file
    (env : Env) (operations : list Request) (h : Trace) :
  exists rs,
    GmailIntegration.processBatchOperations env operations None h
    = (Returned rs, [])
    /\ length rs = length operations
    /\ Forall (fun r => success r = false
                        /\ message r = Some "Service account file is required")
              rs
    /\ Forall2 tagged operations rs.
Proof.
  eexists. split; [reflexivity|]. split; [apply length_map|]. split.
  - apply Forall_forall. intros r H.
    apply in_map_iff in H as (op & <- & _). now split.
  - induction operations as [|op ops IH]; simpl; constructor; [now split | exact IH].
Qed.

(** ** The check-then-act guard of [processDelegateOperation] *)

Section CheckThenAct.

Variables (env : Env) (m : string) (d : string) (file : File).

(** The key file is saved, read back as a key object and removed without
    error, and the identity passes the two probes for mailbox [m]. *)
Hypothesis saved : forall t, fs_write env t = Returned tt.
Hypothesis key_read : forall t, exists c p, fs_read env t = Returned (JsonKey c p).
Hypothesis cleaned : forall t, fs_unlink env t = Returned tt.
Hypothesis token : forall t, get_access_token env t (Some m) = Returned tt.
Hypothesis profile : forall t, get_profile env t (Some m) = Returned tt.

Lemma normalise_absent (ds : list Delegate) :
  (forall x, In x ds -> delegateEmail x <> Js.Str d) ->
  GmailIntegration.some_delegate (Some (map GmailIntegration.normalise ds)) (Some d)
  = false.
Proof.
  intros H. simpl. induction ds as [|x ds IH]; simpl; [reflexivity|].
  rewrite IH by (intros y Hy; apply H; now right).
  rewrite orb_false_r.
  specialize (H x (or_introl eq_refl)).
  destruct (delegateEmail x) as [| |s]; simpl; try reflexivity.
  destruct (Js.truthy s); simpl; [|reflexivity].
  apply String.eqb_neq. congruence.
Qed.

Lemma normalise_present (ds : list Delegate) :
  d <> EmptyString ->
  (exists x, In x ds /\ delegateEmail x = Js.Str d) ->
  GmailIntegration.some_delegate (Some (map GmailIntegration.normalise ds)) (Some d)
  = true.
Proof.
  intros Hd (x & Hin & Hx). simpl. apply existsb_exists.
  exists (GmailIntegration.normalise x). split; [now apply in_map|].
  unfold GmailIntegration.normalise. cbn [delegateEmail]. rewrite Hx.
  unfold Js.or_undefined.
  assert (Js.truthy d = true) as -> by (destruct d; [congruence | reflexivity]).
  apply String.eqb_refl.
Qed.

(** Remove on an absent delegate: refused with "does not exist", and the
    delete endpoint is not called. *)
Lemma processDelegateOperation_remove_absent (ds : list Delegate) (h : Trace) :
  (forall t, delegates_list env t (Some m) = Returned (Some ds)) ->
  (forall x, In x ds -> delegateEmail x <> Js.Str d) ->
  exists cs,
    GmailIntegration.processDelegateOperation env "remove" (Some m) (Some d)
      (Some file) h
    = (Returned (failure (Some m) (Some d) "remove"
                   ("Delegate " +++ d +++ " does not exist")), cs)
    /\ Forall (fun c => is_mutating c = false) cs.
Proof.
  intros listed absent. apply normalise_absent in absent.
  unfold_program. rewrite saved.
  destruct (key_read (h ++ [FsWrite])) as (c & p & K). rewrite K.
  cbn [app]. rewrite token, profile. reduce. rewrite listed. reduce.
  rewrite absent. reduce.
  destruct (fs_exists env _); rewrite ?cleaned; reduce;
    (eexists; split; [reflexivity | no_such_call]).
Qed.

(** Add on a present delegate: refused with "already exists", and the
    create endpoint is not called. *)
Lemma processDelegateOperation_add_present (ds : list Delegate) (h : Trace) :
  d <> EmptyString ->
  (forall t, delegates_list env t (Some m) = Returned (Some ds)) ->
  (exists x, In x ds /\ delegateEmail x = Js.Str d) ->
  exists cs,
    GmailIntegration.processDelegateOperation env "add" (Some m) (Some d)
      (Some file) h
    = (Returned (failure (Some m) (Some d) "add"
                   ("Delegate " +++ d +++ " already exists")), cs)
    /\ Forall (fun c => is_mutating c = false) cs.
Proof.
  intros Hd listed present. apply normalise_present in present; [|exact Hd].
  unfold_program. rewrite saved.
  destruct (key_read (h ++ [FsWrite])) as (c & p & K). rewrite K.
  cbn [app]. rewrite token, profile. reduce. rewrite listed. reduce.
  rewrite present. reduce.
  destruct (fs_exists env _); rewrite ?cleaned; reduce;
    (eexists; split; [reflexivity | no_such_call]).
Qed.

(** When the listing itself fails, add and remove stop there: the result
    is the failed listing, with the message of the error, and neither
    mutating endpoint is called. *)
Lemma processDelegateOperation_list_failure (op : string) (e : Error) (h : Trace) :
  (forall t, delegates_list env t (Some m) = Thrown e) ->
  exists cs,
    GmailIntegration.processDelegateOperation env op (Some m) (Some d)
      (Some file) h
    = (Returned (mkResult false None None (Some "list")
                   (Some (Js.or_else (err_message e) "Error listing delegates"))
                   None None), cs)
    /\ Forall (fun c => is_mutating c = false) cs.
Proof.
  intros down.
  unfold_program. rewrite saved.
  destruct (key_read (h ++ [FsWrite])) as (c & p & K). rewrite K.
  cbn [app]. rewrite token, profile. reduce.
  destruct (op =? "list"); reduce; rewrite down; reduce;
    destruct (err_response e); reduce;
    destruct (fs_exists env _); rewrite ?cleaned; reduce;
    (eexists; split; [reflexivity | no_such_call]).
Qed.

End CheckThenAct.

(** ** The identity probe of [createGmailClient] *)

Section Probe.

Variable env : Env.

(** The client of gmail-integration.ts is only handed out after the token
    and the profile have been obtained, and building it calls neither the
    listing nor a mutating endpoint. *)
Lemma createGmailClient_probes (serviceAccount : ServiceAccount)
    (user : option string) (h : Trace) (gmail : Gmail) :
  fst (GmailIntegration.createGmailClient env serviceAccount user h)
  = Returned (Some gmail) ->
  get_access_token env h user = Returned tt
  /\ get_profile env (h ++ [GetAccessToken user]) user = Returned tt.
Proof.
  unfold_program.
  destruct serviceAccount as [|c p]; reduce; [discriminate|].
  rewrite app_nil_r.
  destruct (get_access_token env h user) as [[]|e] eqn:T; reduce.
  - destruct (get_profile env (h ++ [GetAccessToken user]) user) as [[]|e] eqn:P;
      reduce; [now split|].
    destruct (err_response e); reduce; discriminate.
  - destruct (err_response e); reduce; discriminate.
Qed.

(** An identity that fails the token probe gets no client, and
    [processDelegateOperation] then reports the failed construction
    without having called the listing or a mutating endpoint. *)
Lemma processDelegateOperation_unauthenticated
    (op : string) (user delegate : option string) (file : File)
    (e : Error) (h : Trace) :
  (forall t, get_access_token env t user = Thrown e) ->
  (forall t, fs_write env t = Returned tt) ->
  (forall t, fs_unlink env t = Returned tt) ->
  exists r cs,
    GmailIntegration.processDelegateOperation env op user delegate (Some file) h
    = (Returned r, cs)
    /\ success r = false
    /\ Forall (fun c => is_mutating c = false) cs
    /\ ~ In (DelegatesList user) cs.
Proof.
  intros refused saved cleaned.
  unfold_program. rewrite saved.
  destruct (fs_read env (h ++ [FsWrite])) as [[|c p]|e']; reduce;
    rewrite ?refused; reduce;
    destruct (err_response e); reduce;
    destruct (fs_exists env _); rewrite ?cleaned; reduce;
    (do 2 eexists; split; [reflexivity|]; split; [reflexivity|];
     split; [no_such_call|]; simpl; intuition discriminate).
Qed.

End Probe.

(** ** C2, C3, C9: what the script-driven route reports *)

(** C2, at a failing input. Mailbox shared@example.com has no delegate and
    Remove(shared@example.com, user@example.com) is processed.  The claim
    asks for [success = false] with a "does not exist" message and no call
    to the delete endpoint.  [processDelegateOperation] and
    [removeDelegateDirectly] answer so; the script-driven [removeDelegate]
    calls no delete endpoint either, but reports [success = true] and
    "removed successfully". *)
Theorem remove_absent_reported_as_removed :
  let env := Examples.healthy [] in
  let batch := [RemoveRequest Examples.shared Examples.user] in
  returned (map verdict) (fst (Route.processBatch env batch []))
  = Some [(true, Some "Delegate user@example.com removed successfully from shared@example.com.")]
  /\ filter is_mutating (snd (Route.processBatch env batch [])) = []
  /\ returned (map verdict)
        (fst (GmailIntegration.processBatchOperations env batch
                (Some Examples.upload) []))
     = Some [(false, Some "Delegate user@example.com does not exist")]
  /\ returned (map verdict) (fst (DirectRoute.processBatch env batch []))
     = Some [(false, Some "Delegate user@example.com does not exist")].
Proof. vm_compute. repeat split. Qed.

(** C3, at a failing input. user@example.com already is a delegate of
    shared@example.com and Add(shared@example.com, user@example.com) is
    processed.  The claim asks for [success = false] with an "already
    exists" message and no call to the create endpoint.
    [processDelegateOperation] and [addDelegateDirectly] answer so; the
    script-driven [addDelegate] calls no create endpoint either, but reports
    [success = true] and "added successfully". *)
Theorem add_present_reported_as_added :
  let env := Examples.healthy Examples.accepted in
  let batch := [AddRequest Examples.shared Examples.user] in
  returned (map verdict) (fst (Route.processBatch env batch []))
  = Some [(true, Some "Delegate user@example.com added successfully to shared@example.com.")]
  /\ filter is_mutating (snd (Route.processBatch env batch [])) = []
  /\ returned (map verdict)
        (fst (GmailIntegration.processBatchOperations env batch
                (Some Examples.upload) []))
     = Some [(false, Some "Delegate user@example.com already exists")]
  /\ returned (map verdict) (fst (DirectRoute.processBatch env batch []))
     = Some [(false, Some "Delegate user@example.com already exists")].
Proof. vm_compute. repeat split. Qed.

(** C9, at a failing input. Two delegates are added to a mailbox without
    delegates and the service accepts both creations.  The claim asks for a
    [success] that follows the outcome the client reports.  In the
    script-driven route it follows the text of the script's output: the
    address ErrorDesk@example.com contains the word searched for, and that
    addition is reported as failed, although its create call was made and
    accepted like the other one.  [processBatchOperations] reports both as
    successful. *)
Theorem success_read_off_script_output :
  let env := Examples.healthy [] in
  let batch := [AddRequest Examples.shared "ErrorDesk@example.com";
                AddRequest Examples.shared "HelpDesk@example.com"] in
  returned (map verdict) (fst (Route.processBatch env batch []))
  = Some [(false, Some "Failed to add delegate. Check the details for more information.");
          (true, Some "Delegate HelpDesk@example.com added successfully to shared@example.com.")]
  /\ filter is_mutating (snd (Route.processBatch env batch []))
     = [DelegatesCreate (Some Examples.shared) (Some "ErrorDesk@example.com");
        DelegatesCreate (Some Examples.shared) (Some "HelpDesk@example.com")]
  /\ returned (map success)
        (fst (GmailIntegration.processBatchOperations env batch
                (Some Examples.upload) []))
     = Some [true; true].
Proof. vm_compute. repeat split. Qed.

(** ** C7: a failed listing *)

(** C7, at a failing input. The listing of shared@example.com fails with a
    network error and an Add and a Remove are processed.  The claim asks
    that no mutating call be made and that both results be failures.
    [processBatchOperations] does so, with the message of the listing
    error.  The direct route goes on to the mutation: it calls the create
    and the delete endpoint and reports two successes.  The script-driven
    route calls the create endpoint as well. *)
Theorem mutation_after_failed_listing :
  let env := Examples.listing_down in
  let batch := [AddRequest Examples.shared Examples.user;
                RemoveRequest Examples.shared Examples.user] in
  returned (map verdict) (fst (DirectRoute.processBatch env batch []))
  = Some [(true, Some "Delegate user@example.com added successfully");
          (true, Some "Delegate user@example.com removed successfully")]
  /\ filter is_mutating (snd (DirectRoute.processBatch env batch []))
     = [DelegatesCreate (Some Examples.shared) (Some Examples.user);
        DelegatesDelete (Some Examples.shared) (Some Examples.user)]
  /\ filter is_mutating (snd (Route.processBatch env batch []))
     = [DelegatesCreate (Some Examples.shared) (Some Examples.user)]
  /\ returned (map verdict)
        (fst (GmailIntegration.processBatchOperations env batch
                (Some Examples.upload) []))
     = Some [(false, Some "connect ETIMEDOUT"); (false, Some "connect ETIMEDOUT")]
  /\ filter is_mutating
        (snd (GmailIntegration.processBatchOperations env batch
                (Some Examples.upload) []))
     = [].
Proof. vm_compute. repeat split. Qed.

(** ** C8: construction without a probe *)

(** C8, at a failing input. The identity cannot be authenticated: the
    service refuses every call.  The claim asks that the construction of
    the client fail, by a probe, before anything else is tried.
    [createGmailClient] of gmail-integration.ts does so: it asks for a token
    and returns no client.  [createGmailClient] of the route reads the key
    file and returns a client without any call to the service; the refusal
    only shows in the listing, and in the direct route, which builds its
    client the same way, an Add goes as far as calling the create
    endpoint. *)
Theorem client_built_without_probe :
  let env := Examples.unauthorised in
  Route.createGmailClient env (Some Examples.shared) []
  = (Returned (Some (mkGmail (Some Examples.shared))), [FsRead])
  /\ returned (map verdict)
        (fst (Route.processBatch env [ListRequest Examples.shared] []))
     = Some [(false, Some "unauthorized_client")]
  /\ DirectRoute.createGmailClient env (Some Examples.shared) []
     = (Returned (Some (mkGmail (Some Examples.shared))), [FsRead])
  /\ filter is_remote
        (snd (DirectRoute.processBatch env
                [AddRequest Examples.shared Examples.user] []))
     = [DelegatesList (Some Examples.shared);
        DelegatesCreate (Some Examples.shared) (Some Examples.user)]
  /\ fst (GmailIntegration.createGmailClient env Examples.key
            (Some Examples.shared) [])
     = Returned None
  /\ filter is_remote
        (snd (GmailIntegration.processBatchOperations env
                [AddRequest Examples.shared Examples.user]
                (Some Examples.upload) []))
     = [GetAccessToken (Some Examples.shared)]
  /\ returned (map verdict)
        (fst (GmailIntegration.processBatchOperations env
                [AddRequest Examples.shared Examples.user]
                (Some Examples.upload) []))
     = Some [(false, Some "Failed to create Gmail client")].
Proof. vm_compute. repeat split. Qed.

(** ** C4: the parser validates nothing; the route refuses per line *)

Lemma truthy_trim (s : string) : Js.truthy (Js.trim s) = negb (all_space s).
Proof.
  destruct (all_space s) eqn:E.
  - now apply trim_all_space.
  - destruct (Js.truthy (Js.trim s)) eqn:T; [reflexivity|].
    apply trim_empty in T. congruence.
Qed.

Section Loops.

Context {A B : Type}.
Variable body : A -> list B -> M (list B).

Lemma forOf_app (xs ys : list A) :
  forall acc t,
    forOf body (xs ++ ys) acc t
    = bind (forOf body xs acc) (fun acc' => forOf body ys acc') t.
Proof.
  induction xs as [|x xs IH]; intros acc t.
  - simpl. unfold bind, ret. rewrite app_nil_r.
    now destruct (forOf body ys acc t).
  - cbn [app forOf]. unfold bind.
    destruct (body x acc t) as [[acc1|e] cs]; [|reflexivity].
    rewrite IH. unfold bind.
    destruct (forOf body xs acc1 (t ++ cs)) as [[acc2|e] cs']; [|reflexivity].
    rewrite <- app_assoc.
    destruct (forOf body ys acc2 (t ++ cs ++ cs')) as [r cs''].
    now rewrite <- app_assoc.
Qed.

(** The body only appends to the array it is given. *)
Hypothesis appends :
  forall x acc t,
    body x acc t = (extend acc (fst (body x [] t)), snd (body x [] t)).

Lemma forOf_appends (xs : list A) :
  forall acc t,
    forOf body xs acc t
    = (extend acc (fst (forOf body xs [] t)), snd (forOf body xs [] t)).
Proof.
  induction xs as [|x xs IH]; intros acc t.
  - simpl. now rewrite app_nil_r.
  - cbn [forOf]. unfold bind. rewrite (appends x acc t).
    destruct (body x [] t) as [[l|e] cs]; simpl; [|reflexivity].
    rewrite (IH (acc ++ l)), (IH l).
    destruct (forOf body xs [] (t ++ cs)) as [[l'|e] cs']; simpl; [|reflexivity].
    now rewrite app_assoc.
Qed.

End Loops.

Section RouteLoop.

Variable env : Env.

Lemma route_body_appends op acc t :
  Route.iteration env op acc t
  = (extend acc (fst (Route.iteration env op [] t)),
     snd (Route.iteration env op [] t)).
Proof.
  unfold Route.iteration. cbv zeta.
  destruct (req_operation op =? "list").
  { unfold bind.
    destruct (Route.createGmailClient env (req_userEmail op) t)
      as [[[gmail|]|e] cs]; [| reflexivity | reflexivity].
    destruct (Route.listDelegates env gmail (t ++ cs)) as [[r|e] cs'];
      reflexivity. }
  destruct (req_operation op =? "add").
  { unfold bind.
    destruct (Route.addDelegate env _ _ t) as [[r|e] cs]; reflexivity. }
  destruct (req_operation op =? "remove").
  { unfold bind.
    destruct (Route.removeDelegate env _ _ t) as [[r|e] cs]; reflexivity. }
  reflexivity.
Qed.

Lemma route_body_unrecognised op acc t :
  recognised (req_operation op) = false ->
  Route.iteration env op acc t
  = (Returned (push acc (failure (req_userEmail op) (req_delegateEmail op)
                           (req_operation op)
                           ("Invalid operation: " +++ req_operation op))), []).
Proof.
  unfold recognised, Route.iteration. cbv zeta. intros H.
  apply orb_false_elim in H as [H El]. apply orb_false_elim in H as [Ea Er].
  now rewrite El, Ea, Er.
Qed.

(** A request of unrecognised kind adds its refusal to the results and
    nothing to the calls; the rest of the batch runs as without it. *)
Lemma route_processBatch_cut pre op post h :
  recognised (req_operation op) = false ->
  exists rs1 rs2 cs,
    Route.processBatch env (pre ++ post) h = (Returned (rs1 ++ rs2), cs)
    /\ length rs1 = length pre
    /\ Route.processBatch env (pre ++ op :: post) h
       = (Returned (rs1 ++ failure (req_userEmail op) (req_delegateEmail op)
                             (req_operation op)
                             ("Invalid operation: " +++ req_operation op)
                        :: rs2), cs).
Proof.
  intros Hop.
  destruct (route_processBatch_tagged env pre h) as (rs1 & E1 & F1).
  unfold Route.processBatch in *.
  rewrite !forOf_app. unfold bind.
  destruct (forOf (Route.iteration env) pre [] h) as [o1 cs1].
  simpl in E1. subst o1.
  cbn [forOf]. unfold bind at 1.
  rewrite (route_body_unrecognised _ _ _ Hop). rewrite !app_nil_r.
  rewrite (forOf_appends (Route.iteration env) route_body_appends post (push rs1 _)).
  rewrite (forOf_appends (Route.iteration env) route_body_appends post rs1).
  destruct (route_processBatch_tagged env post (h ++ cs1)) as (rs2 & E2 & F2).
  unfold Route.processBatch in E2.
  destruct (forOf (Route.iteration env) post [] (h ++ cs1)) as [o2 cs2].
  simpl in E2. subst o2.
  exists rs1, rs2, (cs1 ++ cs2). simpl. repeat split.
  - symmetry. eapply Forall2_length, F1.
  - unfold push. now rewrite <- app_assoc.
Qed.

End RouteLoop.

(** ** C1: the length and the order of batch results *)

Section Turns.

Context {A B : Type}.
Variable body : A -> list B -> M (list B).

(** The body only appends to the array it is given, and what it appends is
    one result. *)
Hypothesis appends :
  forall x acc t,
    body x acc t = (extend acc (fst (body x [] t)), snd (body x [] t)).
Hypothesis one : forall x t, exists r, fst (body x [] t) = Returned [r].

(** Such a loop returns, in order, the results of its turns, and its calls
    are the calls of its turns. *)
Lemma forOf_turns (xs : list A) :
  forall acc t,
    exists rs,
      forOf body xs acc t
      = (Returned (acc ++ rs), concat (map snd (turns body xs t)))
      /\ map fst (turns body xs t) = map (fun r => Returned [r]) rs.
Proof.
  induction xs as [|x xs IH]; intros acc t.
  - exists []. simpl. now rewrite app_nil_r.
  - cbn [forOf turns map concat]. unfold bind. rewrite (appends x acc t).
    destruct (one x t) as (r & E).
    destruct (body x [] t) as [o cs]. cbn [fst snd] in *. subst o.
    cbn [extend].
    destruct (IH (acc ++ [r]) (t ++ cs)) as (rs & E1 & E2). rewrite E1.
    exists (r :: rs). split.
    + now rewrite <- app_assoc.
    + cbn [map]. now rewrite E2.
Qed.

End Turns.

Section BatchLoops.

Variable env : Env.

Lemma direct_body_appends op acc t :
  DirectRoute.iteration env op acc t
  = (extend acc (fst (DirectRoute.iteration env op [] t)),
     snd (DirectRoute.iteration env op [] t)).
Proof.
  unfold DirectRoute.iteration. cbv zeta. unfold bind.
  destruct (DirectRoute.createGmailClient env (req_userEmail op) t)
    as [[[gmail|]|e] cs]; [| reflexivity | reflexivity].
  destruct (req_operation op =? "list").
  { destruct (DirectRoute.listDelegates env gmail (t ++ cs)) as [[r|e] cs'];
      reflexivity. }
  destruct (req_operation op =? "add").
  { destruct (DirectRoute.addDelegateDirectly env gmail _ (t ++ cs))
      as [[r|e] cs']; reflexivity. }
  destruct (req_operation op =? "remove").
  { destruct (DirectRoute.removeDelegateDirectly env gmail _ (t ++ cs))
      as [[r|e] cs']; reflexivity. }
  reflexivity.
Qed.

(** A turn of either loop returns one result. *)
Lemma route_turn_returns op t :
  exists r, fst (Route.iteration env op [] t) = Returned [r].
Proof.
  destruct (route_processBatch_tagged env [op] t) as (rs & E & F).
  unfold Route.processBatch in E. cbn [forOf] in E. unfold bind, ret in E.
  destruct (Route.iteration env op [] t) as [[l|e] cs]; cbn [fst] in *;
    [|discriminate].
  injection E as ->. inversion F as [|? r ? rs' _ F']. inversion F'.
  now exists r.
Qed.

Lemma direct_turn_returns op t :
  exists r, fst (DirectRoute.iteration env op [] t) = Returned [r].
Proof.
  destruct (direct_processBatch_tagged env [op] t) as (rs & E & F).
  unfold DirectRoute.processBatch in E. cbn [forOf] in E. unfold bind, ret in E.
  destruct (DirectRoute.iteration env op [] t) as [[l|e] cs]; cbn [fst] in *;
    [|discriminate].
  injection E as ->. inversion F as [|? r ? rs' _ F']. inversion F'.
  now exists r.
Qed.

End BatchLoops.

(** C1. Every batch processor returns, for a list of N requests, a list of N
    results in the order of the requests, for every environment, hence
    however many calls fail; none of them stops early or throws.
    [processBatchOperations] returns exactly what [processDelegateOperation]
    returns for each request in turn.  Each [processBatch] loop runs one
    turn per request, in order, each at the history the turns before it
    left: the calls of the batch are the calls of all its turns, the i-th
    result is the one result that the loop body returns for the i-th
    request, and it carries the mailbox and the kind of that request. *)
Theorem batch_results_aligned
    (env : Env) (operations : list Request) (file : option File) (h : Trace) :
  (exists rs,
      fst (GmailIntegration.processBatchOperations env operations file h) = Returned rs
      /\ length rs = length operations
      /\ map Returned rs
         = run_each (fun op =>
                       GmailIntegration.processDelegateOperation env
                         (req_operation op) (req_userEmail op)
                         (req_delegateEmail op) file)
                    operations h)
  /\ (exists rs,
        Route.processBatch env operations h
        = (Returned rs,
           concat (map snd (turns (Route.iteration env) operations h)))
        /\ length rs = length operations
        /\ Forall2 tagged operations rs
        /\ map fst (turns (Route.iteration env) operations h)
           = map (fun r => Returned [r]) rs)
  /\ (exists rs,
        DirectRoute.processBatch env operations h
        = (Returned rs,
           concat (map snd (turns (DirectRoute.iteration env) operations h)))
        /\ length rs = length operations
        /\ Forall2 tagged operations rs
        /\ map fst (turns (DirectRoute.iteration env) operations h)
           = map (fun r => Returned [r]) rs).
Proof.
  split; [|split].
  - assert (H : exists rs,
               fst (GmailIntegration.processBatchOperations env operations file h)
               = Returned rs
               /\ map Returned rs
                  = run_each (fun op =>
                                GmailIntegration.processDelegateOperation env
                                  (req_operation op) (req_userEmail op)
                                  (req_delegateEmail op) file)
                             operations h).
    { destruct file as [f|].
      - destruct (processBatchOperations_loop env (Some f) operations [] h)
          as (rs & E & R).
        exists rs. split; [exact E | exact R].
      - eexists. split; [reflexivity|].
        clear. revert h. induction operations as [|op ops IH]; intros h; [reflexivity|].
        cbn [map run_each].
        destruct (GmailIntegration.processDelegateOperation env (req_operation op)
                    (req_userEmail op) (req_delegateEmail op) None h) as [o cs] eqn:E.
        pose proof (processDelegateOperation_without_file env (req_operation op)
                      (req_userEmail op) (req_delegateEmail op) h) as W.
        rewrite E in W. simpl in W. subst o. now rewrite <- IH. }
    destruct H as (rs & E & R). exists rs. repeat split; trivial.
    apply (f_equal (@length _)) in R. rewrite length_map in R. rewrite R.
    clear. revert h. induction operations as [|op ops IH]; intros h; [reflexivity|].
    cbn [run_each].
    destruct (GmailIntegration.processDelegateOperation env _ _ _ file h).
    simpl. now rewrite IH.
  - destruct (forOf_turns (Route.iteration env) (route_body_appends env)
                (route_turn_returns env) operations [] h) as (rs & E & T).
    destruct (route_processBatch_tagged env operations h) as (rs' & E' & F).
    unfold Route.processBatch in *. rewrite E in E'. cbn [fst app] in E'.
    injection E' as <-.
    exists rs. repeat split; trivial.
    symmetry. eapply Forall2_length, F.
  - destruct (forOf_turns (DirectRoute.iteration env) (direct_body_appends env)
                (direct_turn_returns env) operations [] h) as (rs & E & T).
    destruct (direct_processBatch_tagged env operations h) as (rs' & E' & F).
    unfold DirectRoute.processBatch in *. rewrite E in E'. cbn [fst app] in E'.
    injection E' as <-.
    exists rs. repeat split; trivial.
    symmetry. eapply Forall2_length, F.
Qed.


(** ** C5: the confirmation gate *)

Section Gate.

Variables (env : Env) (file : File) (st : Hook.State).

Hypothesis batch_mode : Hook.batchMode st = true.
Hypothesis has_remove :
  exists r, In r (parseBatchOperations (Hook.batchEmails st))
            /\ req_operation r = "remove".

Lemma batch_mentions_remove :
  Js.includes (Hook.batchEmails st) "remove" = true
  /\ Js.truthy (Js.trim (Hook.batchEmails st)) = true.
Proof.
  destruct has_remove as (r & Hin & Hr).
  rewrite <- Hr. now apply parsed_kind_in_text.
Qed.

(** Unconfirmed, the batch is held: the flag is set, [onSubmit] is not
    run and no call is issued. *)
Lemma held_until_confirmed (onSubmit : FormData -> M unit) (h : Trace) :
  Hook.showConfirmation st = false ->
  Hook.handleSubmit onSubmit
    (Hook.mkOptions (Some file) (Some "service-account")) st h
  = (Returned (Hook.setShowConfirmation st true), []).
Proof.
  intros flag. destruct batch_mentions_remove as [Hinc Htrim].
  unfold Hook.handleSubmit, Hook.needsConfirmation.
  cbn [Hook.authMethod Js.truthy negb].
  rewrite batch_mode, Htrim, Hinc, flag.
  cbn [negb andb orb]. rewrite orb_true_r. reflexivity.
Qed.

(** Confirmed, the form reaches [onSubmit]. *)
Lemma confirmed_is_submitted (onSubmit : FormData -> M unit) (h : Trace) :
  Hook.handleSubmit onSubmit
    (Hook.mkOptions (Some file) (Some "service-account"))
    (Hook.setShowConfirmation st true) h
  = (sent <- attempt (onSubmit (Hook.formDataOf file "service-account"
                                  (Hook.setShowConfirmation st true))) ;;
     match sent with
     | Returned _ =>
         ret (Hook.setIsSubmitting
                (Hook.setShowConfirmation
                   (Hook.setBatchEmails (Hook.setShowConfirmation st true)
                      EmptyString) false) false)
     | Thrown error =>
         consoleErrorWith "Error submitting form:" error ;;
         ret (Hook.setIsSubmitting (Hook.setShowConfirmation st true) false)
     end) h.
Proof.
  destruct batch_mentions_remove as [Hinc Htrim].
  unfold Hook.handleSubmit, Hook.needsConfirmation.
  cbn [Hook.authMethod Hook.serviceAccountFile Js.truthy negb
       Hook.setShowConfirmation Hook.batchMode Hook.batchEmails
       Hook.showConfirmation Hook.operation].
  rewrite batch_mode, Htrim.
  cbn [negb andb orb]. rewrite andb_false_r.
  reflexivity.
Qed.

End Gate.

(** The route hands a posted batch to [processBatch] and answers with its
    results; around it only the log line is printed and the key file is
    written and removed. *)
Lemma POST_runs_batch (env : Env) (formData : FormData) (file : File)
    (ops : list Request) (h : Trace) (rs : list OperationResult) (cs : list Call) :
  fd_serviceAccount formData = Some file ->
  fd_operations formData = Some ops ->
  fs_write env (h ++ [announced]) = Returned tt ->
  Route.processBatch env ops (h ++ [announced; FsWrite]) = (Returned rs, cs) ->
  exists extra,
    Route.POST env formData h
    = (Returned (mkResponse 200 (BatchBody rs)), announced :: FsWrite :: cs ++ extra)
    /\ Forall (fun c => is_remote c = false) extra.
Proof.
  intros Hfile Hops Hsave Hrun.
  unfold Route.POST. rewrite Hfile, Hops.
  cbv [try_catch try_finally attempt bind call ret throw Route.cleanupFile
       consoleErrorWith consoleError consoleLog emit].
  fold announced. rewrite Hsave.
  replace ((h ++ [announced]) ++ [FsWrite]) with (h ++ [announced; FsWrite])
    by now rewrite <- app_assoc.
  rewrite Hrun. cbn -[String.append].
  destruct (fs_unlink env _) as [[]|e]; cbn -[String.append]; rewrite ?app_nil_r.
  - exists [FsUnlink]. split; [reflexivity | no_such_call].
  - eexists [FsUnlink; _]. split; [reflexivity | no_such_call].
Qed.

(** C5. A batch from which at least one remove request is parsed, submitted
    in batch mode with a service account and the confirmation flag unset,
    is held: the hook returns with the flag set (it awaits confirmation)
    without running [onSubmit], so no call is issued, to the remote service
    or otherwise.  The same batch submitted again with the flag set is
    handed to [onSubmit] as the parsed operations, and the remote calls of
    the submission are those of [onSubmit]; posted to the route, that form
    is run by the batch processor: the response carries the results of
    [processBatch] on the parsed batch, one per request, and the remote
    calls issued are exactly those of [processBatch].  (The handler prints
    its log line before it saves the key file, so the key file is written
    at the history [h' ++ [announced]].) *)
Theorem removal_awaits_confirmation
    (env : Env) (onSubmit : FormData -> M unit) (file : File)
    (st : Hook.State) (h h' : Trace) :
  let options := Hook.mkOptions (Some file) (Some "service-account") in
  let awaiting := Hook.setShowConfirmation st true in
  let operations := parseBatchOperations (Hook.batchEmails st) in
  let formData := Hook.formDataOf file "service-account" awaiting in
  Hook.batchMode st = true ->
  Hook.showConfirmation st = false ->
  (exists r, In r operations /\ req_operation r = "remove") ->
  fs_write env (h' ++ [announced]) = Returned tt ->
  Hook.handleSubmit onSubmit options st h = (Returned awaiting, [])
  /\ fd_operations formData = Some operations
  /\ filter is_remote (snd (Hook.handleSubmit onSubmit options awaiting h'))
     = filter is_remote (snd (onSubmit formData h'))
  /\ exists rs,
      fst (Route.processBatch env operations (h' ++ [announced; FsWrite])) = Returned rs
      /\ length rs = length operations
      /\ fst (Route.POST env formData h') = Returned (mkResponse 200 (BatchBody rs))
      /\ filter is_remote (snd (Route.POST env formData h'))
         = filter is_remote
             (snd (Route.processBatch env operations (h' ++ [announced; FsWrite]))).
Proof.
  intros options awaiting operations formData Hmode Hflag Hremove Hsave.
  assert (Hops : fd_operations formData = Some operations).
  { unfold formData, Hook.formDataOf. simpl. now rewrite Hmode. }
  split; [now apply held_until_confirmed|].
  split; [exact Hops|].
  split.
  { unfold options, awaiting.
    rewrite (@confirmed_is_submitted file st Hmode Hremove).
    fold awaiting. fold formData.
    unfold bind, attempt, ret, consoleErrorWith, consoleError, emit.
    destruct (onSubmit formData h') as [[u|e] cs]; cbn [snd].
    - now rewrite !app_nil_r.
    - rewrite app_nil_r, filter_app. cbn [filter is_remote]. now rewrite app_nil_r. }
  destruct (route_processBatch_tagged env operations (h' ++ [announced; FsWrite]))
    as (rs & Ers & Frs).
  exists rs. split; [exact Ers|].
  split; [symmetry; eapply Forall2_length, Frs|].
  destruct (Route.processBatch env operations (h' ++ [announced; FsWrite]))
    as [o cs] eqn:Erun.
  simpl in Ers. subst o.
  destruct (@POST_runs_batch env formData file operations h' rs cs)
    as (extra & Epost & Hextra); trivial.
  { unfold formData, Hook.formDataOf. simpl. now rewrite Hmode. }
  rewrite Epost. cbn [fst snd]. split; [reflexivity|].
  cbn [filter is_remote]. rewrite filter_app.
  replace (filter is_remote extra) with (@nil Call); [now rewrite app_nil_r|].
  clear -Hextra. induction Hextra as [|c l Hc _ IH]; [reflexivity|].
  simpl. now rewrite Hc.
Qed.

(** A witness of C5: one remove request, first held, then run. *)
Lemma removal_awaits_confirmation_witness :
  let env := Examples.healthy Examples.accepted in
  let st := Examples.batchForm "remove,shared@example.com,user@example.com" in
  (Hook.batchMode st = true
   /\ Hook.showConfirmation st = false
   /\ (exists r, In r (parseBatchOperations (Hook.batchEmails st))
                 /\ req_operation r = "remove")
   /\ fs_write env [announced] = Returned tt)
  /\ Hook.handleSubmit (postTo env) Examples.options st []
     = (Returned (Hook.setShowConfirmation st true), [])
  /\ filter is_remote
       (snd (Hook.handleSubmit (postTo env) Examples.options
               (Hook.setShowConfirmation st true) []))
     = [GetAccessToken (Some Examples.shared); GetProfile (Some Examples.shared);
        DelegatesList (Some Examples.shared);
        DelegatesDelete (Some Examples.shared) (Some Examples.user)].
Proof.
  intros env st.
  assert (Hremove : exists r, In r (parseBatchOperations (Hook.batchEmails st))
                              /\ req_operation r = "remove").
  { exists (RemoveRequest Examples.shared Examples.user).
    split; [now left | reflexivity]. }
  split; [repeat split; trivial|].
  destruct (@removal_awaits_confirmation env (postTo env) Examples.upload st [] []
              eq_refl eq_refl Hremove eq_refl)
    as (Hheld & _ & Hcalls & _).
  split; [exact Hheld|].
  etransitivity; [exact Hcalls|]. vm_compute. reflexivity.
Defined.

(** ** C4: a malformed batch is parsed and run *)

(** C4, at a failing input.  The batch holds the line the specification
    gives as malformed, [addshared@example.com,user@example.com] (no comma
    after the kind), a line with four fields, and a listing.  Nothing is
    rejected: the first line is parsed into a request of kind
    "addshared@example.com", the second into a plain add request (the
    fourth field is dropped), and the batch is submitted without any toast,
    [handleSubmit]'s "Invalid format" included.  The route then runs it:
    the add and the listing reach the service, and the malformed line gets
    a result of its own. *)
Lemma malformed_batch_parsed_and_run :
  let env := Examples.healthy [] in
  let text := "addshared@example.com,user@example.com" +++ Route.line_break
              +++ "add,shared@example.com,user@example.com,oops" +++ Route.line_break
              +++ "list,shared@example.com" in
  let submitted := Hook.handleSubmit (postTo env) Examples.options
                     (Examples.batchForm text) [] in
  parseBatchOperations "addshared@example.com,user@example.com"
  = [mkRequest "addshared@example.com" (Some "user@example.com") None]
  /\ parseBatchOperations "add,shared@example.com,user@example.com,oops"
     = [AddRequest Examples.shared Examples.user]
  /\ parseBatchOperations text
     = [mkRequest "addshared@example.com" (Some "user@example.com") None;
        AddRequest Examples.shared Examples.user;
        ListRequest Examples.shared]
  /\ filter is_toast (snd submitted) = []
  /\ filter is_remote (snd submitted)
     = [GetAccessToken (Some Examples.shared); GetProfile (Some Examples.shared);
        DelegatesList (Some Examples.shared);
        DelegatesCreate (Some Examples.shared) (Some Examples.user);
        DelegatesList (Some Examples.shared)]
  /\ returned (map verdict)
       (fst (Route.processBatch env (parseBatchOperations text) [announced; FsWrite]))
     = Some [(false, Some "Invalid operation: addshared@example.com");
             (true, Some "Delegate user@example.com added successfully to shared@example.com.");
             (true, Some "Delegates retrieved successfully")].
Proof. vm_compute. repeat split. Qed.

(** ** C6: what the gate depends on *)

(** C6, at a failing input.  First, a confirmation outlives an edit: a batch
    removing a delegate of shared@example.com is held; the text is then
    changed to remove a delegate of ceo@example.com and submitted, and this
    changed batch is run without being held again: the delete endpoint is
    called for the new mailbox, although the same changed batch, submitted
    with the flag unset, is held.  Second, the decision is not one over the
    parsed requests: two texts that parse to the same requests, with the
    same flag, are decided differently, because one of them contains the
    word "remove" in a field the parser drops. *)
Lemma confirmation_outlives_edit :
  let env := Examples.healthy Examples.accepted in
  let first := Examples.batchForm "remove,shared@example.com,user@example.com" in
  let awaiting := Hook.setShowConfirmation first true in
  let edited := Hook.setBatchEmails awaiting "remove,ceo@example.com,user@example.com" in
  Hook.handleSubmit (postTo env) Examples.options first [] = (Returned awaiting, [])
  /\ parseBatchOperations (Hook.batchEmails edited)
     <> parseBatchOperations (Hook.batchEmails first)
  /\ Hook.handleSubmit (postTo env) Examples.options
       (Hook.setShowConfirmation edited false) []
     = (Returned edited, [])
  /\ returned Hook.showConfirmation
       (fst (Hook.handleSubmit (postTo env) Examples.options edited []))
     = Some false
  /\ filter is_mutating
       (snd (Hook.handleSubmit (postTo env) Examples.options edited []))
     = [DelegatesDelete (Some "ceo@example.com") (Some Examples.user)]
  /\ parseBatchOperations "list,shared@example.com,,remove"
     = parseBatchOperations "list,shared@example.com,"
  /\ Hook.needsConfirmation (Examples.batchForm "list,shared@example.com,,remove") = true
  /\ Hook.needsConfirmation (Examples.batchForm "list,shared@example.com,") = false.
Proof. vm_compute. repeat split. discriminate. Qed.

(** Once the input checks pass, [handleSubmit] is the gate followed by the
    submission. *)
Lemma handleSubmit_checked (onSubmit : FormData -> M unit)
    (options : Hook.Options) (st : Hook.State) :
  inputsComplete options st = true ->
  Hook.handleSubmit onSubmit options st
  = if Hook.needsConfirmation st then ret (Hook.setShowConfirmation st true)
    else
      let safeAuthMethod :=
        match Hook.authMethod options with Some a => a | None => EmptyString end in
      match (safeAuthMethod =? "service-account"), Hook.serviceAccountFile options with
      | true, Some file =>
          sent <- attempt (onSubmit (Hook.formDataOf file safeAuthMethod st)) ;;
          match sent with
          | Returned _ =>
              let st1 :=
                if Hook.batchMode st then Hook.setBatchEmails st EmptyString
                else if negb (Hook.operation st =? "list")
                     then Hook.setDelegateEmail st EmptyString
                     else st in
              ret (Hook.setIsSubmitting (Hook.setShowConfirmation st1 false) false)
          | Thrown error =>
              consoleErrorWith "Error submitting form:" error ;;
              ret (Hook.setIsSubmitting st false)
          end
      | _, _ =>
          Hook.toast "Missing service account" "Service account file is required" ;;
          ret (Hook.setIsSubmitting st false)
      end.
Proof.
  unfold inputsComplete, Hook.handleSubmit. intros H.
  apply andb_prop in H as [Hauth Hrest].
  destruct (Hook.authMethod options) as [a|]; [|discriminate].
  rewrite Hauth. cbn [negb].
  destruct (Hook.batchMode st); cbn [negb andb].
  - rewrite Hrest. reflexivity.
  - apply andb_prop in Hrest as [Huser Hdelegate]. rewrite Huser. cbn [negb].
    destruct ((Hook.operation st =? "add") || (Hook.operation st =? "remove"));
      cbn [negb orb andb] in *; [rewrite Hdelegate|]; reflexivity.
Qed.

(** * Further properties of the code *)

(** ** What a computation never calls *)

Section Emits.

Context {A B : Type}.
Variable P : Call -> Prop.

Lemma emits_ret (a : A) : emits P (ret a).
Proof. intros t. constructor. Qed.

Lemma emits_throw (e : Error) : emits P (@throw A e).
Proof. intros t. constructor. Qed.

Lemma emits_call (c : Call) (answer : Trace -> Outcome A) :
  P c -> emits P (call c answer).
Proof. intros H t. simpl. now constructor. Qed.

Lemma emits_bind (m : M A) (f : A -> M B) :
  emits P m -> (forall a, emits P (f a)) -> emits P (bind m f).
Proof.
  intros Hm Hf t. unfold bind. specialize (Hm t).
  destruct (m t) as [[a|e] cs]; simpl in *; [|exact Hm].
  specialize (Hf a (t ++ cs)). destruct (f a (t ++ cs)) as [r cs']. simpl in *.
  apply Forall_app. now split.
Qed.

(** The same, when the continuation only needs to be followed from the
    values [m] can return. *)
Lemma emits_bind_from (m : M A) (f : A -> M B) (Q : A -> Prop) :
  (forall t a, fst (m t) = Returned a -> Q a) ->
  emits P m -> (forall a, Q a -> emits P (f a)) -> emits P (bind m f).
Proof.
  intros HQ Hm Hf t. unfold bind. specialize (Hm t). specialize (HQ t).
  destruct (m t) as [[a|e] cs]; simpl in *; [|exact Hm].
  specialize (Hf a (HQ a eq_refl) (t ++ cs)).
  destruct (f a (t ++ cs)) as [r cs']. simpl in *.
  apply Forall_app. now split.
Qed.

Lemma emits_bind_ret (a : A) (f : A -> M B) :
  emits P (f a) -> emits P (bind (ret a) f).
Proof.
  intros H. apply emits_bind_from with (Q := fun x => x = a).
  - intros t x E. now injection E.
  - intros t. constructor.
  - now intros x ->.
Qed.

Lemma emits_bind_throw (e : Error) (f : A -> M B) :
  emits P (bind (throw e) f).
Proof. intros t. constructor. Qed.

Lemma emits_attempt (m : M A) : emits P m -> emits P (attempt m).
Proof. intros H t. unfold attempt. specialize (H t). now destruct (m t). Qed.

End Emits.

Lemma emits_try_catch {A} (P : Call -> Prop) (m : M A) (handler : Error -> M A) :
  emits P m -> (forall e, emits P (handler e)) -> emits P (try_catch m handler).
Proof.
  intros Hm Hh. unfold try_catch. apply emits_bind; [now apply emits_attempt|].
  intros [a|e]; [apply emits_ret | apply Hh].
Qed.

Lemma emits_try_finally {A} (P : Call -> Prop) (m : M A) (cleanup : M unit) :
  emits P m -> emits P cleanup -> emits P (try_finally m cleanup).
Proof.
  intros Hm Hc. unfold try_finally. apply emits_bind; [now apply emits_attempt|].
  intros r. apply emits_bind; [exact Hc|].
  intros _. destruct r; [apply emits_ret | apply emits_throw].
Qed.

Lemma emits_weaken {A} (P Q : Call -> Prop) (m : M A) :
  emits P m -> (forall c, P c -> Q c) -> emits Q m.
Proof. intros H W t. eapply Forall_impl; [exact W | apply H]. Qed.

Lemma emits_emit (P : Call -> Prop) (c : Call) : P c -> emits P (emit c).
Proof. intros H t. simpl. now constructor. Qed.

Lemma emits_forOf {A B} (P : Call -> Prop) (body : A -> list B -> M (list B))
    (xs : list A) :
  (forall x, In x xs -> forall acc, emits P (body x acc)) ->
  forall acc, emits P (forOf body xs acc).
Proof.
  induction xs as [|x xs IH]; intros H acc; simpl.
  - apply emits_ret.
  - apply emits_bind; [apply H; now left|].
    intros acc'. apply IH. intros y Hy. apply H. now right.
Qed.

Lemma emits_forEach {A} (P : Call -> Prop) (body : A -> M unit)
    (xs : list A) :
  (forall x, emits P (body x)) -> emits P (Scripts.forEach body xs).
Proof.
  intros H. induction xs as [|x xs IH]; simpl.
  - apply emits_ret.
  - apply emits_bind; [apply H | intros _; exact IH].
Qed.

Lemma emits_execPromise (P : Call -> Prop) (env : Env) (script : string)
    (child : M unit) :
  P (Exec script) -> emits P child -> emits P (Route.execPromise env script child).
Proof.
  intros He Hc t. unfold Route.execPromise.
  destruct (exec env t script) as [w|e]; simpl; [|now repeat constructor].
  specialize (Hc (t ++ [Exec script])).
  destruct (child (t ++ [Exec script])) as [r cs]. simpl in *. now constructor.
Qed.

Ltac emits_side := simpl; intuition (auto; congruence).

(** One step of the proof that a computation only issues calls satisfying a
    predicate: follow the structure of the program. *)
Ltac emits_step :=
  lazymatch goal with
  | |- emits _ (bind (ret _) _) => apply emits_bind_ret; cbv beta
  | |- emits _ (bind (throw _) _) => apply emits_bind_throw
  | |- emits _ (bind _ _) => apply emits_bind; [|intros ?]
  | |- emits _ (try_catch _ _) => apply emits_try_catch; [|intros ?]
  | |- emits _ (try_finally _ _) => apply emits_try_finally
  | |- emits _ (attempt _) => apply emits_attempt
  | |- emits _ (ret _) => apply emits_ret
  | |- emits _ (throw _) => apply emits_throw
  | |- emits _ (call _ _) => apply emits_call; emits_side
  | |- emits _ (emit _) => apply emits_emit; emits_side
  | |- emits _ (consoleLog _) => apply emits_emit; emits_side
  | |- emits _ (consoleError _) => apply emits_emit; emits_side
  | |- emits _ (consoleErrorWith _ _) => apply emits_emit; emits_side
  | |- emits _ (Hook.toast _ _) => apply emits_emit; emits_side
  | |- emits _ (consoleErrorResponse _ ?e) =>
      unfold consoleErrorResponse; destruct (err_response e)
  | |- emits _ (Scripts.forEach _ _) => apply emits_forEach; intros ?
  | |- emits _ (Route.execPromise _ _ _) => apply emits_execPromise; [emits_side|]
  | |- emits ?P (if true then ?a else _) => change (emits P a)
  | |- emits ?P (if false then _ else ?b) => change (emits P b)
  | |- emits _ (match ?x with _ => _ end) => destruct x
  end.

Ltac emits_run := repeat emits_step.

(** ** Whom the client of gmail-integration.ts calls *)

Section Calls.

Variable env : Env.

(** Building the client only probes: a token, a profile, console output. *)
Lemma createGmailClient_calls serviceAccount user :
  emits (fun c => is_list c = false /\ is_create c = false
                  /\ is_delete c = false /\ acts_as user c)
        (GmailIntegration.createGmailClient env serviceAccount user).
Proof.
  unfold GmailIntegration.createGmailClient, GmailIntegration.newJWT.
  destruct serviceAccount; emits_run.
Qed.

Lemma listDelegates_calls gmail :
  emits (fun c => is_create c = false /\ is_delete c = false
                  /\ acts_as (subject gmail) c)
        (GmailIntegration.listDelegates env gmail).
Proof. unfold GmailIntegration.listDelegates. emits_run. Qed.

Lemma route_listDelegates_calls gmail :
  emits (fun c => is_create c = false /\ is_delete c = false
                  /\ acts_as (subject gmail) c)
        (Route.listDelegates env gmail).
Proof. unfold Route.listDelegates. emits_run. Qed.

Lemma route_createGmailClient_calls user :
  emits (fun c => is_remote c = false) (Route.createGmailClient env user).
Proof.
  unfold Route.createGmailClient, GmailIntegration.newJWT.
  apply emits_try_catch; [|intros e; emits_run].
  apply emits_bind; [emits_run|]. intros [|c p]; emits_run.
Qed.

Lemma direct_createGmailClient_calls user :
  emits (fun c => is_remote c = false) (DirectRoute.createGmailClient env user).
Proof. exact (route_createGmailClient_calls user). Qed.

Lemma createGmailClient_subject serviceAccount user t gmail :
  fst (GmailIntegration.createGmailClient env serviceAccount user t)
  = Returned (Some gmail) ->
  subject gmail = user.
Proof.
  unfold_program. destruct serviceAccount as [|c p]; reduce; [discriminate|].
  destruct (get_access_token env _ user) as [[]|e]; reduce.
  - destruct (get_profile env _ user) as [[]|e]; reduce.
    + intros E. now injection E as <-.
    + destruct (err_response e); reduce; discriminate.
  - destruct (err_response e); reduce; discriminate.
Qed.

End Calls.

(** The footprints above, used where a program calls these functions. *)
Ltac emits_known :=
  lazymatch goal with
  | |- emits _ (GmailIntegration.createGmailClient _ _ _) =>
      eapply emits_weaken; [apply createGmailClient_calls|];
      cbv beta; intros ? (? & ? & ? & ?); emits_side
  | |- emits _ (GmailIntegration.listDelegates _ _) =>
      eapply emits_weaken; [apply listDelegates_calls|];
      cbv beta; intros ? (? & ? & ?); emits_side
  | |- emits _ (Route.listDelegates _ _) =>
      eapply emits_weaken; [apply route_listDelegates_calls|];
      cbv beta; intros ? (? & ? & ?); emits_side
  | |- emits _ (DirectRoute.listDelegates _ _) =>
      eapply emits_weaken; [apply route_listDelegates_calls|];
      cbv beta; intros ? (? & ? & ?); emits_side
  | |- emits _ (Route.createGmailClient _ _) =>
      eapply emits_weaken; [apply route_createGmailClient_calls|];
      cbv beta; intros [] ?; (discriminate || emits_side)
  | |- emits _ (DirectRoute.createGmailClient _ _) =>
      eapply emits_weaken; [apply direct_createGmailClient_calls|];
      cbv beta; intros [] ?; (discriminate || emits_side)
  end.

Ltac emits_all := repeat (emits_step || emits_known).

(** ** What [processDelegateOperation] calls *)

Section Footprint.

Variable env : Env.

Lemma processDelegateOperation_calls op user delegate file :
  emits (fun c => acts_as user c
                  /\ (op <> "add" -> is_create c = false)
                  /\ (op <> "remove" -> is_delete c = false))
        (GmailIntegration.processDelegateOperation env op user delegate file).
Proof.
  unfold GmailIntegration.processDelegateOperation,
    GmailIntegration.saveServiceAccountToTemp.
  apply emits_try_catch; [|intros e; emits_run].
  destruct file as [file|]; [|emits_run].
  apply emits_bind; [emits_run | intros _].
  apply emits_try_finally; [|emits_run].
  apply emits_bind; [emits_run | intros serviceAccount].
  apply emits_bind_from with (Q := fun g => forall gm, g = Some gm -> subject gm = user).
  { intros t g E gm ->. now apply createGmailClient_subject in E. }
  { emits_all. }
  intros [gmail|] Hs; [|emits_run]. specialize (Hs gmail eq_refl).
  destruct (String.eqb_spec op "list"); [emits_all|].
  apply emits_bind; [emits_all | intros listResult].
  destruct (String.eqb_spec op "add"), (String.eqb_spec op "remove"); emits_run.
Qed.

(** The two scripts: the one that adds never deletes, and conversely. *)
Lemma addDelegateAccount_calls users delegates :
  emits (fun c => is_delete c = false) (Scripts.addDelegateAccount env users delegates).
Proof.
  unfold Scripts.addDelegateAccount, Scripts.splitEmails. emits_all.
Qed.

Lemma deleteDelegateAccount_calls users delegates :
  emits (fun c => is_create c = false) (Scripts.deleteDelegateAccount env users delegates).
Proof.
  unfold Scripts.deleteDelegateAccount, Scripts.splitEmails. emits_all.
Qed.

Lemma addDelegate_calls user delegate :
  emits (fun c => is_delete c = false) (Route.addDelegate env user delegate).
Proof.
  unfold Route.addDelegate, Route.cleanupFile, Scripts.main.
  emits_all. apply addDelegateAccount_calls.
Qed.

Lemma removeDelegate_calls user delegate :
  emits (fun c => is_create c = false) (Route.removeDelegate env user delegate).
Proof.
  unfold Route.removeDelegate, Route.cleanupFile, Scripts.main.
  emits_all. apply deleteDelegateAccount_calls.
Qed.

Lemma addDelegateDirectly_calls gmail delegate :
  emits (fun c => is_delete c = false) (DirectRoute.addDelegateDirectly env gmail delegate).
Proof. unfold DirectRoute.addDelegateDirectly. emits_all. Qed.

Lemma removeDelegateDirectly_calls gmail delegate :
  emits (fun c => is_create c = false) (DirectRoute.removeDelegateDirectly env gmail delegate).
Proof. unfold DirectRoute.removeDelegateDirectly. emits_all. Qed.

End Footprint.

(** ** Batches mutate only on request *)

Section BatchFootprint.

Variable env : Env.
Variable operations : list Request.

Lemma requested_neither c :
  is_create c = false -> is_delete c = false -> requested operations c.
Proof. intros Hc Hd. split; congruence. Qed.

Lemma requested_add op c :
  In op operations -> req_operation op = "add" -> is_delete c = false -> requested operations c.
Proof. intros Hin Hop Hd. split; [eauto | congruence]. Qed.

Lemma requested_remove op c :
  In op operations -> req_operation op = "remove" -> is_create c = false -> requested operations c.
Proof. intros Hin Hop Hc. split; [congruence | eauto]. Qed.

Lemma not_remote_requested c : is_remote c = false -> requested operations c.
Proof. intros H. apply requested_neither; now destruct c. Qed.

Lemma processDelegateOperation_requested op file :
  In op operations ->
  emits (requested operations)
    (GmailIntegration.processDelegateOperation env (req_operation op)
       (req_userEmail op) (req_delegateEmail op) file).
Proof.
  intros Hin. eapply emits_weaken; [apply processDelegateOperation_calls|].
  intros c (_ & Hc & Hd). split; intros H.
  - destruct (String.eqb_spec (req_operation op) "add") as [E|E]; [eauto|].
    rewrite (Hc E) in H. discriminate.
  - destruct (String.eqb_spec (req_operation op) "remove") as [E|E]; [eauto|].
    rewrite (Hd E) in H. discriminate.
Qed.

Lemma route_iteration_requested op acc :
  In op operations -> emits (requested operations) (Route.iteration env op acc).
Proof.
  intros Hin. unfold Route.iteration. cbv zeta.
  destruct (String.eqb_spec (req_operation op) "list").
  { apply emits_bind.
    - eapply emits_weaken; [apply route_createGmailClient_calls|].
      apply not_remote_requested.
    - intros [gmail|]; [|emits_run]. apply emits_bind; [|intros r; emits_run].
      eapply emits_weaken; [apply route_listDelegates_calls|].
      intros c (Hc & Hd & _). now apply requested_neither. }
  destruct (String.eqb_spec (req_operation op) "add").
  { apply emits_bind; [|intros r; emits_run].
    eapply emits_weaken; [apply addDelegate_calls|].
    intros c Hd. now apply requested_add with op. }
  destruct (String.eqb_spec (req_operation op) "remove"); [|emits_run].
  apply emits_bind; [|intros r; emits_run].
  eapply emits_weaken; [apply removeDelegate_calls|].
  intros c Hc. now apply requested_remove with op.
Qed.

Lemma direct_iteration_requested op acc :
  In op operations -> emits (requested operations) (DirectRoute.iteration env op acc).
Proof.
  intros Hin. unfold DirectRoute.iteration. cbv zeta.
  apply emits_bind.
  { eapply emits_weaken; [apply direct_createGmailClient_calls|].
    apply not_remote_requested. }
  intros [gmail|]; [|emits_run].
  destruct (String.eqb_spec (req_operation op) "list").
  { apply emits_bind; [|intros r; emits_run].
    eapply emits_weaken; [apply route_listDelegates_calls|].
    intros c (Hc & Hd & _). now apply requested_neither. }
  destruct (String.eqb_spec (req_operation op) "add").
  { apply emits_bind; [|intros r; emits_run].
    eapply emits_weaken; [apply addDelegateDirectly_calls|].
    intros c Hd. now apply requested_add with op. }
  destruct (String.eqb_spec (req_operation op) "remove"); [|emits_run].
  apply emits_bind; [|intros r; emits_run].
  eapply emits_weaken; [apply removeDelegateDirectly_calls|].
  intros c Hc. now apply requested_remove with op.
Qed.

(** X1. In each of the three batch processors, for every environment, a
    call to the create endpoint is only made if the batch holds an add
    request, and a call to the delete endpoint only if it holds a remove
    request; a batch of list requests changes nothing. *)
Theorem batches_mutate_only_on_request (file : option File) (h : Trace) :
  Forall (requested operations)
         (snd (GmailIntegration.processBatchOperations env operations file h))
  /\ Forall (requested operations) (snd (Route.processBatch env operations h))
  /\ Forall (requested operations)
            (snd (DirectRoute.processBatch env operations h)).
Proof.
  split; [|split].
  - unfold GmailIntegration.processBatchOperations.
    destruct file as [file|]; [|constructor].
    apply emits_forOf. intros op Hin acc.
    apply emits_bind; [now apply processDelegateOperation_requested | intros r; emits_run].
  - apply emits_forOf. intros op Hin acc. now apply route_iteration_requested.
  - apply emits_forOf. intros op Hin acc. now apply direct_iteration_requested.
Qed.

End BatchFootprint.

(** ** The batch parser *)

Section Parser.

Lemma split_append (sep : ascii) (a b : string) :
  Js.split sep (a +++ String sep b) = Js.split sep a ++ Js.split sep b.
Proof.
  induction a as [|c a IH]; cbn [String.append Js.split].
  - now rewrite Ascii.eqb_refl.
  - destruct (Ascii.eqb c sep); [now rewrite IH|].
    rewrite IH. destruct (Js.split sep a) as [|w ws] eqn:E.
    + now elim (split_not_nil sep a).
    + reflexivity.
Qed.

(** A text in two parts, one above the other, parses to the requests of the
    upper part followed by those of the lower part. *)
Lemma parse_lines (above below : string) :
  parseBatchOperations (above +++ String newline below)
  = parseBatchOperations above ++ parseBatchOperations below.
Proof.
  unfold parseBatchOperations.
  now rewrite split_append, filter_app, map_app.
Qed.

Lemma field_split_comma (s : string) : field s = true -> Js.split comma s = [s].
Proof.
  induction s as [|c s IH]; cbn [field Js.split]; [reflexivity|].
  intros H. apply andb_prop in H as [Hc Hs]. unfold plain in Hc.
  apply andb_prop in Hc as [Hc _].
  destruct (Ascii.eqb c comma); [discriminate|]. now rewrite IH.
Qed.

Lemma field_split_newline (s : string) : field s = true -> Js.split newline s = [s].
Proof.
  induction s as [|c s IH]; cbn [field Js.split]; [reflexivity|].
  intros H. apply andb_prop in H as [Hc Hs]. unfold plain in Hc.
  apply andb_prop in Hc as [_ Hc].
  destruct (Ascii.eqb c newline); [discriminate|]. now rewrite IH.
Qed.

(** A comma does not break a line. *)
Lemma one_line (a rest : string) :
  field a = true -> Js.split newline rest = [rest] ->
  Js.split newline (a +++ String comma rest) = [a +++ String comma rest].
Proof.
  intros Ha Hr. induction a as [|c a IH]; cbn [String.append Js.split].
  - now rewrite Hr.
  - cbn [field] in Ha. apply andb_prop in Ha as [Hc Ha]. unfold plain in Hc.
    apply andb_prop in Hc as [_ Hc].
    destruct (Ascii.eqb c newline); [discriminate|]. now rewrite (IH Ha).
Qed.

Lemma comma_not_blank (a rest : string) :
  Js.truthy (Js.trim (a +++ String comma rest)) = true.
Proof.
  rewrite truthy_trim, all_space_append. cbn [all_space].
  replace (Js.is_space comma) with false by reflexivity.
  now rewrite andb_false_r.
Qed.

End Parser.

(** X2. The parser works line by line: a text made of two parts separated
    by a line break parses to the requests of the first part followed by
    the requests of the second. *)
Theorem parseBatchOperations_by_line (above below : string) :
  parseBatchOperations (above +++ String newline below)
  = parseBatchOperations above ++ parseBatchOperations below.
Proof. apply parse_lines. Qed.

(** X3. A line in the documented format, [operation,userEmail,delegateEmail]
    with fields free of commas and line breaks, parses to the one request
    with these three fields, each trimmed; with two fields
    ([list,mailbox]) the delegate is undefined. *)
Theorem parseBatchOperations_well_formed (kind mailbox delegate : string) :
  field kind = true -> field mailbox = true -> field delegate = true ->
  parseBatchOperations (kind +++ String comma (mailbox +++ String comma delegate))
  = [mkRequest (Js.trim kind) (Some (Js.trim mailbox)) (Some (Js.trim delegate))]
  /\ parseBatchOperations (kind +++ String comma mailbox)
     = [mkRequest (Js.trim kind) (Some (Js.trim mailbox)) None].
Proof.
  intros Hk Hm Hd. unfold parseBatchOperations. split.
  - rewrite one_line; trivial.
    2:{ apply one_line; trivial. now apply field_split_newline. }
    cbn [filter]. rewrite comma_not_blank. cbn [map]. unfold parseLine.
    rewrite !split_append, !field_split_comma by trivial. reflexivity.
  - rewrite one_line; trivial; [|now apply field_split_newline].
    cbn [filter]. rewrite comma_not_blank. cbn [map]. unfold parseLine.
    rewrite !split_append, !field_split_comma by trivial. reflexivity.
Qed.

Lemma parseBatchOperations_well_formed_witness :
  (field "add" = true /\ field " shared@example.com" = true
   /\ field "user@example.com " = true)
  /\ parseBatchOperations "add, shared@example.com,user@example.com "
     = [AddRequest "shared@example.com" "user@example.com"].
Proof.
  split; [repeat split|].
  exact (proj1 (@parseBatchOperations_well_formed "add" " shared@example.com"
                  "user@example.com " eq_refl eq_refl eq_refl)).
Defined.

Section ParserEdges.

Lemma all_space_lines (s : string) :
  all_space s = forallb all_space (Js.split newline s).
Proof.
  induction s as [|c s IH]; cbn [all_space Js.split]; [reflexivity|].
  destruct (Ascii.eqb_spec c newline) as [->|Hc].
  - cbn [forallb all_space]. now rewrite IH.
  - destruct (Js.split newline s) as [|w ws] eqn:E.
    + now elim (split_not_nil newline s).
    + cbn [forallb all_space] in *. now rewrite IH, andb_assoc.
Qed.

Lemma no_line_kept (lines : list string) :
  filter (fun line => Js.truthy (Js.trim line)) lines = []
  <-> forallb all_space lines = true.
Proof.
  induction lines as [|x l IH]; cbn [filter forallb]; [tauto|].
  rewrite truthy_trim.
  destruct (all_space x); cbn [negb andb]; [exact IH | split; discriminate].
Qed.

Lemma trimEnd_idempotent (s : string) : Js.trimEnd (Js.trimEnd s) = Js.trimEnd s.
Proof.
  induction s as [|c s IH]; cbn [Js.trimEnd]; [reflexivity|].
  destruct (Js.trimEnd s) as [|a t] eqn:E.
  - destruct (Js.is_space c) eqn:Hc; cbn [Js.trimEnd]; [reflexivity|].
    now rewrite Hc.
  - cbn [Js.trimEnd] in *. now rewrite IH.
Qed.

(** Empty, or starting with a character that is not white space. *)
Lemma trimStart_head (s : string) :
  match Js.trimStart s with
  | EmptyString => True
  | String c _ => Js.is_space c = false
  end.
Proof.
  induction s as [|c s IH]; cbn [Js.trimStart]; [exact I|].
  destruct (Js.is_space c) eqn:Hc; [exact IH | exact Hc].
Qed.

Lemma trimEnd_head (s : string) :
  match s with
  | EmptyString => True
  | String c _ => Js.is_space c = false
  end ->
  Js.trimStart (Js.trimEnd s) = Js.trimEnd s.
Proof.
  destruct s as [|c s]; [reflexivity|]. intros Hc. cbn [Js.trimEnd].
  destruct (Js.trimEnd s); rewrite ?Hc; cbn [Js.trimStart]; now rewrite Hc.
Qed.

Lemma trim_idempotent (s : string) : Js.trim (Js.trim s) = Js.trim s.
Proof.
  unfold Js.trim. rewrite (trimEnd_head _ (trimStart_head s)).
  apply trimEnd_idempotent.
Qed.

Lemma field_trimStart (s : string) : field s = true -> field (Js.trimStart s) = true.
Proof.
  induction s as [|c s IH]; [trivial|]. intros H. cbn [Js.trimStart].
  destruct (Js.is_space c); [|exact H].
  cbn [field] in H. apply andb_prop in H as [_ H]. auto.
Qed.

Lemma field_trimEnd (s : string) : field s = true -> field (Js.trimEnd s) = true.
Proof.
  induction s as [|c s IH]; [trivial|]. intros H. cbn [field] in H.
  apply andb_prop in H as [Hc H]. specialize (IH H). cbn [Js.trimEnd].
  destruct (Js.trimEnd s).
  - destruct (Js.is_space c); cbn [field]; [reflexivity | now rewrite Hc].
  - cbn [field] in *. now rewrite Hc, IH.
Qed.

Lemma field_trim (s : string) : field s = true -> field (Js.trim s) = true.
Proof. intros H. now apply field_trimEnd, field_trimStart. Qed.

(** The pieces between the commas of a line hold no comma and no line
    break. *)
Lemma pieces_are_fields (text : string) :
  forall line w,
    In line (Js.split newline text) -> In w (Js.split comma line) ->
    field w = true.
Proof.
  induction text as [|c text IH]; intros line w; cbn [Js.split].
  - intros [<-|[]] [<-|[]]. reflexivity.
  - destruct (Ascii.eqb_spec c newline) as [->|Hn].
    + intros [<-|Hin]; [|now apply IH]. intros [<-|[]]. reflexivity.
    + destruct (Js.split newline text) as [|l0 ls] eqn:E.
      { now elim (split_not_nil newline text). }
      intros [<-|Hin]; [|apply IH; now right].
      cbn [Js.split].
      destruct (Ascii.eqb_spec c comma) as [->|Hc].
      * intros [<-|Hw]; [reflexivity|]. apply (IH l0); [now left | exact Hw].
      * destruct (Js.split comma l0) as [|w0 ws] eqn:E0.
        { now elim (split_not_nil comma l0). }
        intros [<-|Hw].
        -- cbn [field]. rewrite (IH l0 w0); [|now left | rewrite E0; now left].
           unfold plain.
           destruct (Ascii.eqb_spec c comma); [contradiction|].
           destruct (Ascii.eqb_spec c newline); [contradiction|]. reflexivity.
        -- apply (IH l0); [now left | rewrite E0; now right].
Qed.

End ParserEdges.

(** X4. The batch parses to no request exactly when the text is blank, that
    is, when [batchEmails.trim()] is empty: the check "Please enter batch
    operations" of the form refuses exactly the texts without a request. *)
Theorem parseBatchOperations_empty (text : string) :
  parseBatchOperations text = [] <-> Js.truthy (Js.trim text) = false.
Proof.
  unfold parseBatchOperations.
  rewrite truthy_trim, negb_false_iff, all_space_lines, <- no_line_kept.
  split; [apply map_eq_nil | now intros ->].
Qed.

(** X5. Whatever the text, every field of every parsed request is trimmed
    and holds neither a comma nor a line break, so white space around a
    field never reaches the processors. *)
Theorem parseBatchOperations_fields_clean (text : string) :
  let clean f := field f = true /\ Js.trim f = f in
  Forall (fun r =>
            clean (req_operation r)
            /\ (forall u, req_userEmail r = Some u -> clean u)
            /\ (forall d, req_delegateEmail r = Some d -> clean d))
         (parseBatchOperations text).
Proof.
  intros clean. apply Forall_forall. intros r Hr.
  unfold parseBatchOperations in Hr. apply in_map_iff in Hr as (line & <- & Hl).
  apply filter_In in Hl as [Hl _].
  assert (Hitems : forall f, In f (map Js.trim (Js.split comma line)) -> clean f).
  { intros f Hf. apply in_map_iff in Hf as (w & <- & Hw). split.
    - apply field_trim. now apply pieces_are_fields with text line.
    - apply trim_idempotent. }
  unfold parseLine. cbn [req_operation req_userEmail req_delegateEmail].
  split; [|split].
  - apply Hitems. destruct (Js.split comma line) eqn:E.
    + now elim (split_not_nil comma line).
    + now left.
  - intros u Hu. apply Hitems. now apply nth_error_In in Hu.
  - intros d Hd. apply Hitems. now apply nth_error_In in Hd.
Qed.

(** ** The form hook outside the batch gate *)

(** X6. When one of the input checks fails (no authentication method, no
    mailbox, no delegate for an add or remove, a blank batch), [handleSubmit]
    shows one toast and does nothing else: the state is unchanged and
    [onSubmit] is not run, whatever the confirmation flag. *)
Theorem incomplete_input_is_refused
    (onSubmit : FormData -> M unit) (options : Hook.Options)
    (st : Hook.State) (h : Trace) :
  inputsComplete options st = false ->
  exists title description,
    Hook.handleSubmit onSubmit options st h
    = (Returned st, [Toast title description]).
Proof.
  unfold inputsComplete, Hook.handleSubmit. intros H.
  destruct (Hook.authMethod options) as [a|]; cbn [Js.truthy negb];
    [|do 2 eexists; reflexivity].
  destruct (Js.truthy a); cbn [negb andb] in *; [|do 2 eexists; reflexivity].
  destruct (Hook.batchMode st); cbn [negb andb] in *.
  - rewrite H. do 2 eexists; reflexivity.
  - destruct (Js.truthy (Hook.userEmail st)); cbn [negb andb] in *;
      [|do 2 eexists; reflexivity].
    destruct ((Hook.operation st =? "add") || (Hook.operation st =? "remove"));
      cbn [negb orb andb] in *; [|discriminate].
    rewrite H. do 2 eexists; reflexivity.
Qed.

Lemma incomplete_input_is_refused_witness :
  let st := Hook.mkState "add" "shared@example.com" EmptyString false EmptyString
              false false in
  inputsComplete Examples.options st = false
  /\ exists title description,
      Hook.handleSubmit (postTo (Examples.healthy [])) Examples.options st []
      = (Returned st, [Toast title description]).
Proof.
  intros st. split; [reflexivity|].
  exact (@incomplete_input_is_refused (postTo (Examples.healthy []))
           Examples.options st [] eq_refl).
Defined.

(** X7. A submission that passes the input checks and is not held for
    confirmation never throws, even when [onSubmit] does.  Without a
    service-account file (or with another authentication method) nothing is
    sent and a toast says so.  Otherwise [onSubmit] is run once on the form
    data; if it returns, the batch text (in single mode, the delegate of an
    add or remove) and the confirmation flag are cleared; if it throws, the
    form and the flag stay as they were.  In every case [isSubmitting] ends
    false. *)
Theorem submission_outcome
    (onSubmit : FormData -> M unit) (options : Hook.Options)
    (st : Hook.State) (h : Trace) :
  inputsComplete options st = true ->
  Hook.needsConfirmation st = false ->
  exists st',
    fst (Hook.handleSubmit onSubmit options st h) = Returned st'
    /\ Hook.isSubmitting st' = false
    /\ match credential options with
       | Some file =>
           let formData := Hook.formDataOf file "service-account" st in
           filter is_remote (snd (Hook.handleSubmit onSubmit options st h))
           = filter is_remote (snd (onSubmit formData h))
           /\ match fst (onSubmit formData h) with
              | Returned _ =>
                  Hook.showConfirmation st' = false
                  /\ (if Hook.batchMode st
                      then Hook.batchEmails st' = EmptyString
                      else Hook.userEmail st' = Hook.userEmail st
                           /\ Hook.delegateEmail st'
                              = if Hook.operation st =? "list"
                                then Hook.delegateEmail st else EmptyString)
              | Thrown _ => st' = Hook.setIsSubmitting st false
              end
       | None =>
           st' = Hook.setIsSubmitting st false
           /\ snd (Hook.handleSubmit onSubmit options st h)
              = [Toast "Missing service account" "Service account file is required"]
       end.
Proof.
  intros Hchecked Hgate. rewrite (handleSubmit_checked onSubmit _ _ Hchecked), Hgate.
  cbv zeta. unfold credential.
  destruct (Hook.authMethod options) as [a|].
  2:{ eexists. split; [reflexivity|]. split; [reflexivity|]. now split. }
  destruct (String.eqb_spec a "service-account") as [->|Ha].
  2:{ eexists. split; [reflexivity|]. split; [reflexivity|]. now split. }
  destruct (Hook.serviceAccountFile options) as [file|].
  2:{ eexists. split; [reflexivity|]. split; [reflexivity|]. now split. }
  unfold bind, attempt, ret, consoleErrorWith, consoleError, emit.
  destruct (onSubmit _ h) as [[u|e] cs]; cbn [fst snd].
  - eexists. split; [reflexivity|]. split; [reflexivity|].
    split; [now rewrite app_nil_r|]. split; [reflexivity|].
    destruct (Hook.batchMode st) eqn:Hb; [reflexivity|].
    destruct (Hook.operation st =? "list"); cbn [negb]; now split.
  - eexists. split; [reflexivity|]. split; [reflexivity|].
    split; [|reflexivity].
    rewrite app_nil_r, filter_app. cbn [filter is_remote]. now rewrite app_nil_r.
Qed.

Lemma submission_outcome_witness :
  let st := Examples.batchForm "list,shared@example.com" in
  (inputsComplete Examples.options st = true
   /\ Hook.needsConfirmation st = false)
  /\ exists st',
      fst (Hook.handleSubmit (postTo (Examples.healthy [])) Examples.options st [])
      = Returned st'
      /\ Hook.isSubmitting st' = false.
Proof.
  intros st. split; [now split|].
  destruct (@submission_outcome (postTo (Examples.healthy [])) Examples.options
              st [] eq_refl eq_refl) as (st' & E & S & _).
  now exists st'.
Defined.

(** X8. A single remove, too, waits for confirmation: in single mode with
    the operation "remove", a mailbox and a delegate, the first submission
    only sets the confirmation flag, without running [onSubmit] or issuing
    any call; submitted again, the form data handed to [onSubmit] are the
    operation, the mailbox and the delegate, with no batch. *)
Theorem single_remove_awaits_confirmation
    (onSubmit : FormData -> M unit) (file : File) (st : Hook.State) (h : Trace) :
  let options := Hook.mkOptions (Some file) (Some "service-account") in
  let awaiting := Hook.setShowConfirmation st true in
  Hook.batchMode st = false ->
  Hook.operation st = "remove" ->
  Js.truthy (Hook.userEmail st) = true ->
  Js.truthy (Hook.delegateEmail st) = true ->
  Hook.showConfirmation st = false ->
  Hook.handleSubmit onSubmit options st h = (Returned awaiting, [])
  /\ Hook.needsConfirmation awaiting = false
  /\ Hook.formDataOf file "service-account" awaiting
     = mkFormData (Some file) (Some "service-account") (Some "remove") None
         (Some (Hook.userEmail st)) (Some (Hook.delegateEmail st)).
Proof.
  intros options awaiting Hmode Hop Hu Hd Hflag.
  assert (Hchecked : inputsComplete options st = true).
  { unfold inputsComplete. cbn. now rewrite Hmode, Hu, Hd, orb_true_r. }
  split; [|split].
  - rewrite (handleSubmit_checked onSubmit _ _ Hchecked).
    unfold Hook.needsConfirmation. now rewrite Hop, Hflag.
  - unfold Hook.needsConfirmation. cbn. apply andb_false_r.
  - unfold Hook.formDataOf. cbn. now rewrite Hmode, Hd, Hop.
Qed.

Lemma single_remove_awaits_confirmation_witness :
  let st := Hook.mkState "remove" "shared@example.com" "user@example.com"
              false EmptyString false false in
  (Hook.batchMode st = false /\ Hook.operation st = "remove"
   /\ Js.truthy (Hook.userEmail st) = true
   /\ Js.truthy (Hook.delegateEmail st) = true
   /\ Hook.showConfirmation st = false)
  /\ Hook.handleSubmit (postTo (Examples.healthy Examples.accepted))
       (Hook.mkOptions (Some Examples.upload) (Some "service-account")) st []
     = (Returned (Hook.setShowConfirmation st true), []).
Proof.
  intros st. split; [repeat split|].
  exact (proj1 (@single_remove_awaits_confirmation
                  (postTo (Examples.healthy Examples.accepted)) Examples.upload
                  st [] eq_refl eq_refl eq_refl eq_refl eq_refl)).
Defined.

(** ** What a computation returns, when it returns *)

Section Returns.

Context {A B : Type}.

Lemma returns_ret (a : A) (Q : A -> Prop) : Q a -> returns (ret a) Q.
Proof. intros H t x E. injection E as <-. exact H. Qed.

Lemma returns_throw (e : Error) (Q : A -> Prop) : returns (throw e) Q.
Proof. intros t x E. discriminate. Qed.

Lemma returns_anything (m : M A) : returns m (fun _ => True).
Proof. intros t x _. exact I. Qed.

Lemma returns_bind (m : M A) (f : A -> M B) (Q : B -> Prop) :
  (forall a, returns (f a) Q) -> returns (bind m f) Q.
Proof.
  intros Hf t x. unfold bind.
  destruct (m t) as [[a|e] cs]; [|discriminate].
  specialize (Hf a (t ++ cs) x). destruct (f a (t ++ cs)). exact Hf.
Qed.

Lemma returns_try_finally (m : M A) (cleanup : M unit) (Q : A -> Prop) :
  returns m Q -> returns (try_finally m cleanup) Q.
Proof.
  intros Hm t x. unfold try_finally, bind, attempt. specialize (Hm t).
  destruct (m t) as [r cs]. cbn [fst] in Hm.
  destruct (cleanup (t ++ cs)) as [[u|e] cs']; [|discriminate].
  destruct r as [a|e]; cbn; [|discriminate]. apply Hm.
Qed.

Lemma returns_try_catch (m : M A) (handler : Error -> M A) (Q : A -> Prop) :
  returns m Q -> (forall e, returns (handler e) Q) ->
  returns (try_catch m handler) Q.
Proof.
  intros Hm Hh t x. unfold try_catch, bind, attempt. specialize (Hm t).
  destruct (m t) as [[a|e] cs]; cbn [fst] in *.
  - cbn. apply Hm.
  - specialize (Hh e (t ++ cs) x). destruct (handler e (t ++ cs)). exact Hh.
Qed.

End Returns.

Lemma yields_try_catch_returns {A} (m : M A) (handler : Error -> M A)
    (Q : A -> Prop) :
  returns m Q -> (forall e, yields (handler e) Q) -> yields (try_catch m handler) Q.
Proof. intros Hm. now apply yields_try_catch. Qed.

Ltac returns_step :=
  lazymatch goal with
  | |- returns (bind _ _) _ => apply returns_bind; intros ?
  | |- returns (try_finally _ _) _ => apply returns_try_finally
  | |- returns (try_catch _ _) _ => apply returns_try_catch; [|intros ?]
  | |- returns (ret _) _ => apply returns_ret; simpl; auto
  | |- returns (throw _) _ => apply returns_throw
  | |- returns (match ?x with _ => _ end) _ => destruct x
  end.

(** ** The handler of the script-driven route *)

Section RoutePost.

Variable env : Env.

(** The clean-up of the route never throws and ends the calls with the
    removal of the file. *)
Lemma finally_cleanupFile {A} (m : M A) (t : Trace) :
  exists tail,
    try_finally m (Route.cleanupFile env) t
    = (fst (m t), snd (m t) ++ FsUnlink :: tail)
    /\ Forall (fun c => is_console c = true) tail.
Proof.
  unfold try_finally, Route.cleanupFile, try_catch, bind, attempt, call, ret,
    throw, consoleErrorWith, consoleError, emit.
  destruct (m t) as [r cs]. cbn [fst snd].
  destruct (fs_unlink env (t ++ cs)) as [[]|e]; cbn [fst snd app].
  - exists []. split; [|constructor]. destruct r; now rewrite ?app_nil_r.
  - eexists [_]. split; [destruct r; now rewrite ?app_nil_r | repeat constructor].
Qed.

(** A computation that starts with a log line. *)
Lemma bind_consoleLog {A} (text : string) (m : M A) (t : Trace) :
  (consoleLog text ;; m) t
  = (fst (m (t ++ [ConsoleLog text])), ConsoleLog text :: snd (m (t ++ [ConsoleLog text]))).
Proof.
  unfold bind, consoleLog, emit. now destruct (m (t ++ [ConsoleLog text])).
Qed.

Lemma POST_statuses formData :
  yields (Route.POST env formData)
         (fun r => status r = 200 \/ status r = 400 \/ status r = 500).
Proof.
  unfold Route.POST.
  eapply yields_bind; [apply yields_emit|]. intros _ _.
  apply yields_try_catch_returns.
  - repeat returns_step.
  - intros e. apply yields_log_ret. auto.
Qed.

End RoutePost.

(** X9. [POST] of the script-driven route never throws: every error becomes
    a response, and the status is 200, 400 or 500.  Without a service
    account file it answers 400 "Service account file is required" and its
    log line is the only call: nothing is written and nothing is sent. *)
Theorem POST_always_answers (env : Env) (formData : FormData) (h : Trace) :
  (exists response,
      fst (Route.POST env formData h) = Returned response
      /\ (status response = 200 \/ status response = 400 \/ status response = 500))
  /\ (fd_serviceAccount formData = None ->
      Route.POST env formData h
      = (Returned (mkResponse 400 (refusal "Service account file is required")),
         [announced])).
Proof.
  split.
  - apply POST_statuses.
  - intros H. unfold Route.POST. rewrite bind_consoleLog. now rewrite H.
Qed.

Lemma POST_always_answers_witness :
  let formData := mkFormData None None None None None None in
  fd_serviceAccount formData = None
  /\ Route.POST Examples.unauthorised formData []
     = (Returned (mkResponse 400 (refusal "Service account file is required")),
        [announced]).
Proof.
  intros formData. split; [reflexivity|].
  exact (proj2 (@POST_always_answers Examples.unauthorised formData []) eq_refl).
Defined.

(** X10. Whenever [POST] has saved the uploaded key file, it removes it
    again after the request has been handled, whatever happened in between:
    its calls are the log line, the write, the calls of the handling and
    the unlink, followed at most by console output. *)
Theorem POST_removes_key_file
    (env : Env) (formData : FormData) (file : File) (h : Trace) :
  fd_serviceAccount formData = Some file ->
  fs_write env (h ++ [announced]) = Returned tt ->
  exists handled tail,
    snd (Route.POST env formData h)
    = announced :: FsWrite :: handled ++ FsUnlink :: tail
    /\ Forall (fun c => is_console c = true) tail.
Proof.
  intros Hfile Hsave. unfold Route.POST. rewrite bind_consoleLog, Hfile.
  fold announced. cbn [snd].
  unfold try_catch at 1. unfold bind at 1. unfold attempt at 1.
  unfold bind at 1. unfold call at 1. rewrite Hsave.
  match goal with
  | |- context [try_finally ?m (Route.cleanupFile env) ?t] =>
      destruct (finally_cleanupFile env m t) as (tail & E & Htail); rewrite E
  end.
  match goal with
  | |- context [fst ?p] => destruct p as [[r|e] cs]
  end; cbn [fst snd].
  - exists cs, tail. split; [|exact Htail]. cbn. now rewrite app_nil_r.
  - exists cs. eexists (tail ++ [_]). split.
    + cbn. rewrite <- !app_assoc. cbn. reflexivity.
    + apply Forall_app. split; [exact Htail | repeat constructor].
Qed.

Lemma POST_removes_key_file_witness :
  let formData := mkFormData (Some Examples.upload) None (Some "list") None
                    (Some Examples.shared) None in
  (fd_serviceAccount formData = Some Examples.upload
   /\ fs_write Examples.unauthorised [announced] = Returned tt)
  /\ exists handled tail,
      snd (Route.POST Examples.unauthorised formData [])
      = announced :: FsWrite :: handled ++ FsUnlink :: tail
      /\ Forall (fun c => is_console c = true) tail.
Proof.
  intros formData. split; [now split|].
  exact (@POST_removes_key_file Examples.unauthorised formData Examples.upload []
           eq_refl eq_refl).
Defined.

(** X11. In single mode (no batch in the form) [POST] validates before it
    contacts the service: without a mailbox it answers 400 "User email is
    required"; for an add or remove without a delegate, 400 "Delegate email
    is required"; for an operation that is none of list, add and remove,
    400 "Invalid operation".  In these three cases no remote call is
    made.  (The key file is written after the log line of the handler.) *)
Theorem POST_validates_first
    (env : Env) (file : File) (authMethod kind mailbox delegate : option string)
    (h : Trace) :
  let formData := mkFormData (Some file) authMethod kind None mailbox delegate in
  let operation := match kind with Some o => Js.or_else o "list" | None => "list" end in
  fs_write env (h ++ [announced]) = Returned tt ->
  missing mailbox = true
  \/ (missing delegate = true /\ (operation = "add" \/ operation = "remove"))
  \/ recognised operation = false ->
  exists msg,
    fst (Route.POST env formData h) = Returned (mkResponse 400 (refusal msg))
    /\ filter is_remote (snd (Route.POST env formData h)) = []
    /\ msg = (if missing mailbox then "User email is required"
              else if recognised operation then "Delegate email is required"
              else "Invalid operation").
Proof.
  intros formData operation Hsave Hcase.
  unfold Route.POST, formData. rewrite bind_consoleLog. fold announced.
  cbn [fd_serviceAccount fd_operations fd_operation fd_userEmail fd_delegateEmail].
  fold operation.
  cbv [try_catch try_finally attempt bind call ret throw Route.cleanupFile
       consoleErrorWith consoleError emit].
  rewrite Hsave.
  destruct (missing mailbox) eqn:Hm.
  { cbn -[String.append]. destruct (fs_unlink env _) as [[]|e];
      cbn -[String.append]; eexists; now repeat split. }
  destruct Hcase as [Hcase | [[Hd Hop] | Hop]]; [discriminate | |].
  - assert (Hrec : recognised operation = true).
    { unfold recognised. destruct Hop as [-> | ->]; reflexivity. }
    assert (Hlist : (operation =? "list") = false).
    { destruct Hop as [-> | ->]; reflexivity. }
    assert (Hor : (operation =? "add") || (operation =? "remove") = true).
    { destruct Hop as [-> | ->]; reflexivity. }
    rewrite Hrec, Hlist, Hor, Hd.
    cbn -[String.append]. destruct (fs_unlink env _) as [[]|e];
      cbn -[String.append]; eexists; now repeat split.
  - rewrite Hop. unfold recognised in Hop.
    apply orb_false_elim in Hop as [Hop Hl]. rewrite Hop, Hl.
    cbn -[String.append]. destruct (fs_unlink env _) as [[]|e];
      cbn -[String.append]; eexists; now repeat split.
Qed.

Lemma POST_validates_first_witness :
  let formData := mkFormData (Some Examples.upload) None (Some "add") None
                    (Some Examples.shared) None in
  (fs_write (Examples.healthy []) [announced] = Returned tt
   /\ missing None = true)
  /\ fst (Route.POST (Examples.healthy []) formData [])
     = Returned (mkResponse 400 (refusal "Delegate email is required"))
  /\ filter is_remote (snd (Route.POST (Examples.healthy []) formData [])) = [].
Proof.
  intros formData. split; [now split|].
  destruct (@POST_validates_first (Examples.healthy []) Examples.upload None
              (Some "add") (Some Examples.shared) None [] eq_refl
              (or_intror (or_introl (conj eq_refl (or_introl eq_refl)))))
    as (msg & E & Q & ->).
  split; [exact E | exact Q].
Defined.

(** X12. A single add or remove posted to the route is handled exactly like
    a batch of that one request: the response carries the result that
    [processBatch] returns for it, and the calls between the write and the
    removal of the key file are the same.  The handler's own calls are its
    log line, the write and the unlink, and console output after it. *)
Theorem POST_single_is_batch_of_one
    (env : Env) (file : File) (authMethod : option string) (kind : string)
    (mailbox delegate : option string) (h : Trace) :
  let formData := mkFormData (Some file) authMethod (Some kind) None mailbox delegate in
  kind = "add" \/ kind = "remove" ->
  missing mailbox = false -> missing delegate = false ->
  fs_write env (h ++ [announced]) = Returned tt ->
  exists r cs tail,
    Route.processBatch env [mkRequest kind mailbox delegate] (h ++ [announced; FsWrite])
    = (Returned [r], cs)
    /\ Route.POST env formData h
       = (Returned (mkResponse 200 (ResultBody r)),
          announced :: FsWrite :: cs ++ FsUnlink :: tail)
    /\ Forall (fun c => is_console c = true) tail.
Proof.
  intros formData Hkind Hm Hd Hsave.
  replace (h ++ [announced; FsWrite]) with ((h ++ [announced]) ++ [FsWrite])
    by now rewrite <- app_assoc.
  set (h1 := h ++ [announced]) in *.
  assert (Hpost : forall (m : M Response) r cs,
             m (h1 ++ [FsWrite]) = (Returned (mkResponse 200 (ResultBody r)), cs) ->
             exists tail,
               try_catch
                 (call FsWrite (fs_write env) ;;
                  try_finally m (Route.cleanupFile env))
                 (fun error =>
                    consoleErrorWith "API error:" error ;;
                    ret (mkResponse 500
                           (refusal (Js.or_else (err_message error)
                                       "An unexpected error occurred")))) h1
               = (Returned (mkResponse 200 (ResultBody r)),
                  FsWrite :: cs ++ FsUnlink :: tail)
               /\ Forall (fun c => is_console c = true) tail).
  { intros m r cs Em.
    destruct (finally_cleanupFile env m (h1 ++ [FsWrite])) as (tail & E & Htail).
    exists tail. split; [|exact Htail].
    unfold try_catch, bind at 1, attempt, bind at 1, call at 1.
    rewrite Hsave, E, Em. cbn. now rewrite app_nil_r. }
  unfold Route.POST. rewrite bind_consoleLog. fold announced. fold h1.
  unfold Route.processBatch, Route.iteration, formData.
  cbn [fd_serviceAccount fd_operations fd_operation fd_userEmail fd_delegateEmail
       forOf req_operation req_userEmail req_delegateEmail].
  rewrite Hm.
  destruct Hkind as [-> | ->];
    cbn [Js.or_else Js.truthy String.eqb Ascii.eqb Bool.eqb orb]; rewrite Hd.
  - destruct (addDelegate_returns env mailbox delegate (h1 ++ [FsWrite]))
      as (r & Er & _).
    destruct (Route.addDelegate env mailbox delegate (h1 ++ [FsWrite]))
      as [o cs] eqn:Ea.
    cbn [fst] in Er. subst o.
    destruct (Hpost (addResult <- Route.addDelegate env mailbox delegate ;;
                     ret (mkResponse 200
                            (ResultBody (spread addResult mailbox delegate "add"))))
                    (spread r mailbox delegate "add") cs) as (tail & E & Htail).
    { unfold bind, ret. rewrite Ea. now rewrite app_nil_r. }
    exists (spread r mailbox delegate "add"), cs, tail.
    split; [|split; [rewrite E; reflexivity | exact Htail]].
    unfold bind, ret. rewrite Ea. cbn. now rewrite !app_nil_r.
  - destruct (removeDelegate_returns env mailbox delegate (h1 ++ [FsWrite]))
      as (r & Er & _).
    destruct (Route.removeDelegate env mailbox delegate (h1 ++ [FsWrite]))
      as [o cs] eqn:Ea.
    cbn [fst] in Er. subst o.
    destruct (Hpost (removeResult <- Route.removeDelegate env mailbox delegate ;;
                     ret (mkResponse 200
                            (ResultBody (spread removeResult mailbox delegate "remove"))))
                    (spread r mailbox delegate "remove") cs) as (tail & E & Htail).
    { unfold bind, ret. rewrite Ea. now rewrite app_nil_r. }
    exists (spread r mailbox delegate "remove"), cs, tail.
    split; [|split; [rewrite E; reflexivity | exact Htail]].
    unfold bind, ret. rewrite Ea. cbn. now rewrite !app_nil_r.
Qed.

Lemma POST_single_is_batch_of_one_witness :
  let env := Examples.healthy [] in
  let formData := mkFormData (Some Examples.upload) None (Some "add") None
                    (Some Examples.shared) (Some Examples.user) in
  (missing (Some Examples.shared) = false /\ missing (Some Examples.user) = false
   /\ fs_write env [announced] = Returned tt)
  /\ exists r cs tail,
      Route.processBatch env [AddRequest Examples.shared Examples.user]
        [announced; FsWrite]
      = (Returned [r], cs)
      /\ Route.POST env formData []
         = (Returned (mkResponse 200 (ResultBody r)),
            announced :: FsWrite :: cs ++ FsUnlink :: tail)
      /\ Forall (fun c => is_console c = true) tail.
Proof.
  intros env formData. split; [repeat split|].
  exact (@POST_single_is_batch_of_one env Examples.upload None "add"
           (Some Examples.shared) (Some Examples.user) []
           (or_introl eq_refl) eq_refl eq_refl eq_refl).
Defined.

(** ** The script-driven add and remove *)

Section ScriptRun.

Variable env : Env.

Lemma yields_try_catch_total {A} (m : M A) (handler : Error -> M A) (Q : A -> Prop) :
  yields m Q -> yields (try_catch m handler) Q.
Proof.
  intros Hm t. unfold try_catch, bind, attempt.
  destruct (Hm t) as (a & E & Qa). destruct (m t) as [r cs].
  cbn [fst] in E. subst r. cbn. now exists a.
Qed.

Lemma yields_consoleErrorResponse label e :
  yields (consoleErrorResponse label e) (fun _ => True).
Proof.
  unfold consoleErrorResponse. destruct (err_response e); intros t; now exists tt.
Qed.

Lemma script_handler_returns l1 l2 l3 e :
  yields (consoleErrorWith l1 e ;; consoleErrorResponse l2 e ;; consoleErrorWith l3 e)
         (fun _ => True).
Proof.
  eapply yields_bind; [apply yields_consoleErrorWith|]. intros _ _.
  eapply yields_bind; [apply yields_consoleErrorResponse|]. intros _ _.
  apply yields_consoleErrorWith.
Qed.

(** Both scripts catch everything: they end with exit status 0. *)
Lemma add_script_returns users delegates :
  yields (Scripts.main (Scripts.addDelegateAccount env users delegates))
         (fun _ => True).
Proof.
  apply yields_try_catch_total, yields_try_catch; [trivial|].
  intros e. apply script_handler_returns.
Qed.

Lemma delete_script_returns users delegates :
  yields (Scripts.main (Scripts.deleteDelegateAccount env users delegates))
         (fun _ => True).
Proof.
  apply yields_try_catch_total, yields_try_catch; [trivial|].
  intros e. apply script_handler_returns.
Qed.

Lemma Infix_append_r (t s r : string) : Infix t s -> Infix t (s +++ r).
Proof.
  intros (p & q & ->). exists p, (q +++ r). now rewrite !append_assoc.
Qed.

End ScriptRun.

(** X13. When the runtime prints an "ExperimentalWarning" on the child's
    stderr, [addDelegate] of the route disregards everything on stderr: its
    result is read off the standard output of the script alone.  With [out]
    the script's standard output, the result is exactly: [rawOutput] is
    [out], [success] says whether [out] is free of the word "Error", and the
    message is "added successfully" or "Failed to add delegate" accordingly;
    it is never "Error executing script", also when the script reported a
    failure on stderr. *)
Theorem warning_hides_script_errors
    (env : Env) (user delegate : option string) (h : Trace) (warnings : string) :
  fs_write env h = Returned tt ->
  exec env (h ++ [FsWrite]) "createDelegate.ts" = Returned warnings ->
  Infix "ExperimentalWarning" warnings ->
  let script := Scripts.main (Scripts.addDelegateAccount env user delegate)
                  (h ++ [FsWrite; Exec "createDelegate.ts"]) in
  let out := Route.stdout_of (snd script) in
  let good := negb (Js.includes out "Error") in
  fst (Route.addDelegate env user delegate h)
  = Returned (mkResult good None None None
                (Some (if good
                       then "Delegate " +++ Js.show delegate
                            +++ " added successfully to " +++ Js.show user +++ "."
                       else "Failed to add delegate. Check the details for more information."))
                None (Some out)).
Proof.
  intros Hsave Hexec Hwarn. cbv zeta.
  replace (h ++ [FsWrite; Exec "createDelegate.ts"])
    with ((h ++ [FsWrite]) ++ [Exec "createDelegate.ts"])
    by now rewrite <- app_assoc.
  unfold Route.addDelegate, Route.execPromise, Route.cleanupFile.
  cbv [try_catch try_finally attempt bind call ret throw consoleErrorWith
       consoleError emit].
  rewrite Hsave, Hexec.
  destruct (add_script_returns env user delegate ((h ++ [FsWrite]) ++ [Exec "createDelegate.ts"]))
    as ([] & Erun & _).
  destruct (Scripts.main _ _) as [o cs]. cbn [fst snd] in *. subst o.
  rewrite (includes_complete (Infix_append_r _ Hwarn)), andb_false_r.
  destruct (Js.includes (Route.stdout_of cs) "Error") eqn:Eout;
    cbn -[String.append Js.includes];
    destruct (fs_unlink env _) as [[]|e]; cbn -[String.append Js.includes];
    reflexivity.
Qed.

(** A witness of X13: the service refuses the creation and the script
    reports it on stderr, after the runtime's warning; the route answers
    that the delegate was added. *)
Lemma warning_hides_script_errors_witness :
  let env := Scenarios.noisy_runtime in
  let script := Scripts.main (Scripts.addDelegateAccount env (Some Examples.shared)
                                (Some Examples.user))
                  [FsWrite; Exec "createDelegate.ts"] in
  (fs_write env [] = Returned tt
   /\ Infix "ExperimentalWarning"
        "(node:4242) ExperimentalWarning: Custom ESM Loaders is an experimental feature")
  /\ filter is_create (snd script)
     = [DelegatesCreate (Some Examples.shared) (Some Examples.user)]
  /\ Js.includes (Route.stderr_of (snd script)) "Quota exceeded" = true
  /\ returned verdict
       (fst (Route.addDelegate env (Some Examples.shared) (Some Examples.user) []))
     = Some (true,
             Some "Delegate user@example.com added successfully to shared@example.com.").
Proof.
  intros env script.
  assert (Hw : Infix "ExperimentalWarning"
                 "(node:4242) ExperimentalWarning: Custom ESM Loaders is an experimental feature").
  { exists "(node:4242) ", ": Custom ESM Loaders is an experimental feature".
    reflexivity. }
  split; [now split|]. split; [reflexivity|]. split; [reflexivity|].
  rewrite (@warning_hides_script_errors env (Some Examples.shared)
             (Some Examples.user) [] _ eq_refl eq_refl Hw).
  reflexivity.
Defined.

(** X14. In the script-driven route an add or remove whose mailbox or whose
    delegate is undefined (a batch line with fewer than three fields) never
    reaches the remote service: the script fails on the missing parameter
    before it reads the key. *)
Theorem incomplete_request_stays_local
    (env : Env) (user delegate : option string) (h : Trace) :
  user = None \/ delegate = None ->
  Forall (fun c => is_remote c = false /\ c <> FsRead)
         (snd (Route.addDelegate env user delegate h))
  /\ Forall (fun c => is_remote c = false /\ c <> FsRead)
            (snd (Route.removeDelegate env user delegate h)).
Proof.
  intros H.
  assert (Ha : emits (fun c => is_remote c = false /\ c <> FsRead)
                     (Scripts.addDelegateAccount env user delegate)).
  { unfold Scripts.addDelegateAccount.
    destruct H as [-> | ->]; [|destruct user]; cbn [Scripts.splitEmails];
      emits_run; discriminate. }
  assert (Hd : emits (fun c => is_remote c = false /\ c <> FsRead)
                     (Scripts.deleteDelegateAccount env user delegate)).
  { unfold Scripts.deleteDelegateAccount.
    destruct H as [-> | ->]; [|destruct user]; cbn [Scripts.splitEmails];
      emits_run; discriminate. }
  split.
  - assert (E : emits (fun c => is_remote c = false /\ c <> FsRead)
                      (Route.addDelegate env user delegate)).
    { unfold Route.addDelegate, Route.cleanupFile, Scripts.main.
      emits_run; try discriminate. exact Ha. }
    apply E.
  - assert (E : emits (fun c => is_remote c = false /\ c <> FsRead)
                      (Route.removeDelegate env user delegate)).
    { unfold Route.removeDelegate, Route.cleanupFile, Scripts.main.
      emits_run; try discriminate. exact Hd. }
    apply E.
Qed.

Lemma incomplete_request_stays_local_witness :
  (@None string = None \/ Some Examples.user = None)
  /\ parseBatchOperations "add" = [mkRequest "add" None None]
  /\ Forall (fun c => is_remote c = false /\ c <> FsRead)
            (snd (Route.addDelegate (Examples.healthy []) None (Some Examples.user) [])).
Proof.
  split; [now left|]. split; [reflexivity|].
  exact (proj1 (@incomplete_request_stays_local (Examples.healthy []) None
                  (Some Examples.user) [] (or_introl eq_refl))).
Defined.

(** ** One operation of the library, case by case *)

(** X15. [processDelegateOperation] calls a mutating endpoint at most once,
    whatever fails; and when its result says [success], the kind was one of
    add, remove and list, and the mutating calls it made are exactly the one
    creation (for add) or the one deletion (for remove) of the request's
    delegate on the request's mailbox, and none for list. *)
Theorem success_means_one_mutation
    (env : Env) (op : string) (user delegate : option string)
    (file : option File) (h : Trace) :
  let run := GmailIntegration.processDelegateOperation env op user delegate file h in
  length (filter is_mutating (snd run)) <= 1
  /\ (returned success (fst run) = Some true ->
      recognised op = true
      /\ filter is_mutating (snd run)
         = if op =? "add" then [DelegatesCreate user delegate]
           else if op =? "remove" then [DelegatesDelete user delegate]
           else []).
Proof.
  unfold_program. destruct file as [file|]; run_cases; cbn.
  all: try (split; [lia | discriminate]).
  all: split; [lia | intros _; unfold recognised].
  all: kinds.
  all: rewrite ?orb_true_r; cbn; auto.
Qed.

Lemma success_means_one_mutation_witness :
  let run := GmailIntegration.processDelegateOperation (Examples.healthy [])
               "add" (Some Examples.shared) (Some Examples.user)
               (Some Examples.upload) [] in
  returned success (fst run) = Some true
  /\ filter is_mutating (snd run)
     = [DelegatesCreate (Some Examples.shared) (Some Examples.user)].
Proof.
  intros run. split; [reflexivity|].
  exact (proj2 (proj2 (@success_means_one_mutation (Examples.healthy []) "add"
                         (Some Examples.shared) (Some Examples.user)
                         (Some Examples.upload) []) eq_refl)).
Defined.

(** X16. If the temporary key file exists and cannot be removed, the error
    of the removal replaces the outcome of the operation: the result is a
    failure carrying the removal's message, also when the mutation had been
    accepted by the service. *)
Theorem cleanup_failure_is_reported
    (env : Env) (op : string) (user delegate : option string)
    (file : File) (h : Trace) (e : Error) :
  fs_write env h = Returned tt ->
  (forall t, fs_exists env t = true) ->
  (forall t, fs_unlink env t = Thrown e) ->
  fst (GmailIntegration.processDelegateOperation env op user delegate (Some file) h)
  = Returned (failure user delegate op
                (Js.or_else (err_message e) "An error occurred during the operation")).
Proof.
  intros Hsave Hex Hun. unfold_program. rewrite Hsave.
  repeat (reduce; rewrite ?app_nil_r, ?Hex, ?Hun; try branch); reflexivity.
Qed.

Lemma cleanup_failure_is_reported_witness :
  let env := Scenarios.cleanup_fails in
  let run := GmailIntegration.processDelegateOperation env "add"
               (Some Examples.shared) (Some Examples.user)
               (Some Examples.upload) [] in
  (fs_write env [] = Returned tt
   /\ (forall t, fs_exists env t = true)
   /\ (forall t, fs_unlink env t
                 = Thrown (mkError "EPERM: operation not permitted, unlink" None)))
  /\ In (DelegatesCreate (Some Examples.shared) (Some Examples.user)) (snd run)
  /\ fst run
     = Returned (failure (Some Examples.shared) (Some Examples.user) "add"
                   "EPERM: operation not permitted, unlink").
Proof.
  intros env run. split; [repeat split|]. split.
  - vm_compute. tauto.
  - exact (@cleanup_failure_is_reported env "add" (Some Examples.shared)
             (Some Examples.user) Examples.upload [] _ eq_refl
             (fun _ => eq_refl) (fun _ => eq_refl)).
Defined.

(** X17. A key file that cannot be written, cannot be read or parsed, or
    holds [null], ends the operation before anything is sent: the result is
    a failure and no call reaches the remote service. *)
Theorem unusable_key_stays_local
    (env : Env) (op : string) (user delegate : option string)
    (file : File) (h : Trace) :
  (exists e, fs_write env h = Thrown e)
  \/ (fs_write env h = Returned tt
      /\ ((exists e, fs_read env (h ++ [FsWrite]) = Thrown e)
          \/ fs_read env (h ++ [FsWrite]) = Returned JsonNull)) ->
  let run := GmailIntegration.processDelegateOperation env op user delegate
               (Some file) h in
  returned success (fst run) = Some false
  /\ filter is_remote (snd run) = [].
Proof.
  intros [(e & Hw) | (Hw & [(e & Hr) | Hr])];
    unfold_program; rewrite Hw; reduce; rewrite ?Hr;
    run_cases; split; reflexivity.
Qed.

Lemma unusable_key_stays_local_witness :
  let env := Scenarios.bad_key in
  let run := GmailIntegration.processDelegateOperation env "remove"
               (Some Examples.shared) (Some Examples.user)
               (Some Examples.upload) [] in
  (fs_write env [] = Returned tt
   /\ fs_read env [FsWrite]
      = Thrown (mkError "Unexpected token h in JSON at position 0" None))
  /\ returned success (fst run) = Some false
  /\ filter is_remote (snd run) = [].
Proof.
  intros env run. split; [now split|].
  apply (@unusable_key_stays_local env "remove" (Some Examples.shared)
           (Some Examples.user) Examples.upload []).
  right. split; [reflexivity|]. left. eexists. reflexivity.
Defined.

(** X18. Every call [processDelegateOperation] makes to the remote service
    impersonates the mailbox of the request and no other; only an add
    request can reach the creation endpoint and only a remove request the
    deletion endpoint. *)
Theorem operation_acts_on_its_mailbox
    (env : Env) (op : string) (user delegate : option string)
    (file : option File) (h : Trace) :
  Forall (fun c => acts_as user c
                   /\ (op <> "add" -> is_create c = false)
                   /\ (op <> "remove" -> is_delete c = false))
         (snd (GmailIntegration.processDelegateOperation env op user delegate file h)).
Proof. exact (@processDelegateOperation_calls env op user delegate file h). Qed.

(** ** The single-operation handlers of the direct-API route *)

(** X19. The direct POST and DELETE handlers always answer, with status
    200, 400 or 500.  They call a mutating endpoint at most once; POST never
    deletes and DELETE never creates; and a 200 answer means that exactly
    the requested creation (POST) or deletion (DELETE) was issued, for the
    form's delegate on the form's mailbox. *)
Theorem direct_handlers_answer (env : Env) (form : DirectForm) (h : Trace) :
  let post := DirectHandlers.POST env form h in
  let delete := DirectHandlers.DELETE env form h in
  (exists r, fst post = Returned r
     /\ In (dr_status r) [200; 400; 500]
     /\ filter is_delete (snd post) = []
     /\ length (filter is_create (snd post)) <= 1
     /\ (dr_status r = 200 ->
         dr_body r = SuccessBody "Delegate added successfully"
         /\ filter is_create (snd post)
            = [DelegatesCreate (df_userEmail form) (df_delegateEmail form)]))
  /\ (exists r, fst delete = Returned r
        /\ In (dr_status r) [200; 400; 500]
        /\ filter is_create (snd delete) = []
        /\ length (filter is_delete (snd delete)) <= 1
        /\ (dr_status r = 200 ->
            dr_body r = SuccessBody "Delegate removed successfully"
            /\ filter is_delete (snd delete)
               = [DelegatesDelete (df_userEmail form) (df_delegateEmail form)])).
Proof.
  destruct form as [[file|] user delegate]; split;
    unfold DirectHandlers.POST, DirectHandlers.DELETE,
      ServiceAccountManager.saveFile, ServiceAccountManager.readFile,
      ServiceAccountManager.cleanupFile;
    unfold_program; run_cases; cbn;
    eexists; (split; [reflexivity|]); cbn;
    (split; [tauto|]); (split; [reflexivity|]); (split; [lia|]);
    intros E; try discriminate E; split; reflexivity.
Qed.

(** X20. A direct POST or DELETE that lacks the key file, the mailbox or the
    delegate (absent or empty) is answered 400 "Missing required fields"
    before anything happens: no file is written and nothing is sent. *)
Theorem direct_handlers_validate (env : Env) (form : DirectForm) (h : Trace) :
  df_serviceAccountFile form = None
  \/ missing (df_userEmail form) = true
  \/ missing (df_delegateEmail form) = true ->
  DirectHandlers.POST env form h
  = (Returned (mkDirectResponse 400 (ErrorBody (Some "Missing required fields"))), [])
  /\ DirectHandlers.DELETE env form h
     = (Returned (mkDirectResponse 400 (ErrorBody (Some "Missing required fields"))), []).
Proof.
  destruct form as [file user delegate]. cbn [df_serviceAccountFile df_userEmail df_delegateEmail].
  intros H. unfold DirectHandlers.POST, DirectHandlers.DELETE.
  cbn [df_serviceAccountFile df_userEmail df_delegateEmail].
  destruct file as [file|]; [|split; reflexivity].
  assert (missing user || missing delegate = true) as E.
  { destruct H as [H | [H | H]];
      [discriminate | now rewrite H | rewrite H; apply orb_true_r]. }
  rewrite E. split; reflexivity.
Qed.

Lemma direct_handlers_validate_witness :
  let form := mkDirectForm (Some Examples.upload) (Some Examples.shared) (Some "") in
  missing (df_delegateEmail form) = true
  /\ DirectHandlers.POST (Examples.healthy []) form []
     = (Returned (mkDirectResponse 400 (ErrorBody (Some "Missing required fields"))), []).
Proof.
  intros form. split; [reflexivity|].
  exact (proj1 (@direct_handlers_validate (Examples.healthy []) form []
                  (or_intror (or_intror eq_refl)))).
Defined.

(** Normalising the listed entries does not change whether a non-empty
    address is among them. *)
Lemma normalise_membership (ds : list Delegate) (d : string) :
  d <> EmptyString ->
  GmailIntegration.some_delegate (Some (map GmailIntegration.normalise ds)) (Some d)
  = existsb (fun x => Js.strict_eq (delegateEmail x) (Some d)) ds.
Proof.
  intros Hd. cbn [GmailIntegration.some_delegate].
  induction ds as [|x l IH]; [reflexivity|]. cbn [map existsb]. rewrite IH.
  f_equal. unfold GmailIntegration.normalise. cbn [delegateEmail].
  destruct (delegateEmail x) as [| |s]; try reflexivity.
  destruct s as [|c s]; cbn; [|reflexivity].
  destruct d; [congruence | reflexivity].
Qed.

Section DirectGuard.

Variables (env : Env) (m d : string) (file : File).

Hypothesis saved : forall t, fs_write env t = Returned tt.
Hypothesis key_read : forall t, exists c p, fs_read env t = Returned (JsonKey c p).
Hypothesis cleaned : forall t, fs_unlink env t = Returned tt.
Hypothesis token : forall t, get_access_token env t (Some m) = Returned tt.
Hypothesis profile : forall t, get_profile env t (Some m) = Returned tt.
Hypothesis mailbox : m <> EmptyString.
Hypothesis address : d <> EmptyString.

Lemma direct_guard_listed (ds : list Delegate) (h : Trace) :
  (forall t, delegates_list env t (Some m) = Returned (Some ds)) ->
  let form := mkDirectForm (Some file) (Some m) (Some d) in
  let present :=
    existsb (fun x => Js.strict_eq (delegateEmail x) (Some d)) ds in
  (if present
   then fst (DirectHandlers.POST env form h)
        = Returned (mkDirectResponse 400 (ErrorBody (Some "Delegate already exists")))
        /\ filter is_mutating (snd (DirectHandlers.POST env form h)) = []
   else filter is_mutating (snd (DirectHandlers.POST env form h))
        = [DelegatesCreate (Some m) (Some d)])
  /\ (if present
      then filter is_mutating (snd (DirectHandlers.DELETE env form h))
           = [DelegatesDelete (Some m) (Some d)]
      else fst (DirectHandlers.DELETE env form h)
           = Returned (mkDirectResponse 400 (ErrorBody (Some "Delegate does not exist")))
           /\ filter is_mutating (snd (DirectHandlers.DELETE env form h)) = []).
Proof.
  intros listed form present.
  assert (N : GmailIntegration.some_delegate
                (Some (map GmailIntegration.normalise ds)) (Some d) = present)
    by exact (normalise_membership ds address).
  assert (Tm : missing (Some m) = false) by (destruct m; [congruence | reflexivity]).
  assert (Td : missing (Some d) = false) by (destruct d; [congruence | reflexivity]).
  subst form.
  unfold DirectHandlers.POST, DirectHandlers.DELETE,
    ServiceAccountManager.saveFile, ServiceAccountManager.readFile,
    ServiceAccountManager.cleanupFile.
  cbn [df_serviceAccountFile df_userEmail df_delegateEmail].
  rewrite Tm, Td. cbn [orb].
  unfold_program. rewrite saved.
  destruct (key_read (h ++ [FsWrite])) as (c & p & K). rewrite K.
  cbn [app]. rewrite token, profile. reduce. rewrite listed. reduce.
  rewrite N. destruct present; reduce;
    repeat (reduce; rewrite ?app_nil_r, ?cleaned; try branch);
    repeat split; reflexivity.
Qed.

Lemma direct_guard_list_failure (e : Error) (h : Trace) :
  (forall t, delegates_list env t (Some m) = Thrown e) ->
  let form := mkDirectForm (Some file) (Some m) (Some d) in
  let refusal :=
    mkDirectResponse 500
      (ErrorBody (Some (Js.or_else (err_message e) "Error listing delegates"))) in
  (fst (DirectHandlers.POST env form h) = Returned refusal
   /\ filter is_mutating (snd (DirectHandlers.POST env form h)) = [])
  /\ (fst (DirectHandlers.DELETE env form h) = Returned refusal
      /\ filter is_mutating (snd (DirectHandlers.DELETE env form h)) = []).
Proof.
  intros down form refusal.
  assert (Tm : missing (Some m) = false) by (destruct m; [congruence | reflexivity]).
  assert (Td : missing (Some d) = false) by (destruct d; [congruence | reflexivity]).
  subst form refusal.
  unfold DirectHandlers.POST, DirectHandlers.DELETE,
    ServiceAccountManager.saveFile, ServiceAccountManager.readFile,
    ServiceAccountManager.cleanupFile.
  cbn [df_serviceAccountFile df_userEmail df_delegateEmail].
  rewrite Tm, Td. cbn [orb].
  unfold_program. rewrite saved.
  destruct (key_read (h ++ [FsWrite])) as (c & p & K). rewrite K.
  cbn [app]. rewrite token, profile. reduce. rewrite down.
  repeat (reduce; rewrite ?app_nil_r, ?cleaned; try branch);
    repeat split; reflexivity.
Qed.

End DirectGuard.

(** X21. With a usable key, a mailbox that passes the identity probes and a
    listing that answers [ds], the direct handlers check before they act:
    POST creates the delegate exactly when no listed entry has its address
    and otherwise answers 400 "Delegate already exists"; DELETE deletes it
    exactly when a listed entry has its address and otherwise answers 400
    "Delegate does not exist".  A refused request issues no mutating call. *)
Theorem direct_handlers_check_then_act
    (env : Env) (m d : string) (file : File) (ds : list Delegate) (h : Trace) :
  (forall t, fs_write env t = Returned tt) ->
  (forall t, exists c p, fs_read env t = Returned (JsonKey c p)) ->
  (forall t, fs_unlink env t = Returned tt) ->
  (forall t, get_access_token env t (Some m) = Returned tt) ->
  (forall t, get_profile env t (Some m) = Returned tt) ->
  m <> EmptyString -> d <> EmptyString ->
  (forall t, delegates_list env t (Some m) = Returned (Some ds)) ->
  let form := mkDirectForm (Some file) (Some m) (Some d) in
  let present :=
    existsb (fun x => Js.strict_eq (delegateEmail x) (Some d)) ds in
  (if present
   then fst (DirectHandlers.POST env form h)
        = Returned (mkDirectResponse 400 (ErrorBody (Some "Delegate already exists")))
        /\ filter is_mutating (snd (DirectHandlers.POST env form h)) = []
   else filter is_mutating (snd (DirectHandlers.POST env form h))
        = [DelegatesCreate (Some m) (Some d)])
  /\ (if present
      then filter is_mutating (snd (DirectHandlers.DELETE env form h))
           = [DelegatesDelete (Some m) (Some d)]
      else fst (DirectHandlers.DELETE env form h)
           = Returned (mkDirectResponse 400 (ErrorBody (Some "Delegate does not exist")))
           /\ filter is_mutating (snd (DirectHandlers.DELETE env form h)) = []).
Proof.
  intros saved key_read cleaned token profile Hm Hd listed.
  exact (@direct_guard_listed env m d file saved key_read cleaned token profile
           Hm Hd ds h listed).
Qed.

Lemma direct_handlers_check_then_act_witness :
  let env := Examples.healthy Examples.accepted in
  let form := mkDirectForm (Some Examples.upload) (Some Examples.shared)
                (Some Examples.user) in
  fst (DirectHandlers.POST env form [])
  = Returned (mkDirectResponse 400 (ErrorBody (Some "Delegate already exists")))
  /\ filter is_mutating (snd (DirectHandlers.POST env form [])) = []
  /\ filter is_mutating (snd (DirectHandlers.DELETE env form []))
     = [DelegatesDelete (Some Examples.shared) (Some Examples.user)].
Proof.
  intros env form.
  pose proof (@direct_handlers_check_then_act env Examples.shared Examples.user
                Examples.upload Examples.accepted []
                (fun _ => eq_refl)
                (fun _ => ex_intro _ _ (ex_intro _ _ eq_refl))
                (fun _ => eq_refl) (fun _ => eq_refl) (fun _ => eq_refl)
                ltac:(discriminate) ltac:(discriminate) (fun _ => eq_refl)) as H.
  cbv zeta in H. change (existsb _ Examples.accepted) with true in H.
  destruct H as [[H1 H2] H3]. exact (conj H1 (conj H2 H3)).
Defined.

(** X22. When the listing fails, the direct handlers stop: both answer 500
    with the message of the listing error and neither calls a mutating
    endpoint (unlike the batch functions of the same file). *)
Theorem direct_handlers_stop_on_failed_listing
    (env : Env) (m d : string) (file : File) (e : Error) (h : Trace) :
  (forall t, fs_write env t = Returned tt) ->
  (forall t, exists c p, fs_read env t = Returned (JsonKey c p)) ->
  (forall t, fs_unlink env t = Returned tt) ->
  (forall t, get_access_token env t (Some m) = Returned tt) ->
  (forall t, get_profile env t (Some m) = Returned tt) ->
  m <> EmptyString -> d <> EmptyString ->
  (forall t, delegates_list env t (Some m) = Thrown e) ->
  let form := mkDirectForm (Some file) (Some m) (Some d) in
  let refusal :=
    mkDirectResponse 500
      (ErrorBody (Some (Js.or_else (err_message e) "Error listing delegates"))) in
  (fst (DirectHandlers.POST env form h) = Returned refusal
   /\ filter is_mutating (snd (DirectHandlers.POST env form h)) = [])
  /\ (fst (DirectHandlers.DELETE env form h) = Returned refusal
      /\ filter is_mutating (snd (DirectHandlers.DELETE env form h)) = []).
Proof.
  intros saved key_read cleaned token profile Hm Hd down.
  exact (@direct_guard_list_failure env m d file saved key_read cleaned token
           profile Hm Hd e h down).
Qed.

Lemma direct_handlers_stop_on_failed_listing_witness :
  let env := Examples.listing_down in
  let form := mkDirectForm (Some Examples.upload) (Some Examples.shared)
                (Some Examples.user) in
  let refusal := mkDirectResponse 500 (ErrorBody (Some "connect ETIMEDOUT")) in
  (fst (DirectHandlers.POST env form []) = Returned refusal
   /\ filter is_mutating (snd (DirectHandlers.POST env form [])) = [])
  /\ (fst (DirectHandlers.DELETE env form []) = Returned refusal
      /\ filter is_mutating (snd (DirectHandlers.DELETE env form [])) = []).
Proof.
  intros env form refusal.
  exact (@direct_handlers_stop_on_failed_listing env Examples.shared Examples.user
           Examples.upload (mkError "connect ETIMEDOUT" None) []
           (fun _ => eq_refl)
           (fun _ => ex_intro _ _ (ex_intro _ _ eq_refl))
           (fun _ => eq_refl) (fun _ => eq_refl) (fun _ => eq_refl)
           ltac:(discriminate) ltac:(discriminate) (fun _ => eq_refl)).
Defined.

(** ** Listing and the existence check *)


Section LibraryGuard.

Variables (env : Env) (m d : string) (file : File) (ds : list Delegate).

Hypothesis saved : forall t, fs_write env t = Returned tt.
Hypothesis key_read : forall t, exists c p, fs_read env t = Returned (JsonKey c p).
Hypothesis cleaned : forall t, fs_unlink env t = Returned tt.
Hypothesis token : forall t, get_access_token env t (Some m) = Returned tt.
Hypothesis profile : forall t, get_profile env t (Some m) = Returned tt.
Hypothesis address : d <> EmptyString.
Hypothesis listed : forall t, delegates_list env t (Some m) = Returned (Some ds).

Lemma library_add_absent (h : Trace) :
  existsb (fun x => Js.strict_eq (delegateEmail x) (Some d)) ds = false ->
  let add := GmailIntegration.processDelegateOperation env "add" (Some m) (Some d)
               (Some file) h in
  filter is_mutating (snd add) = [DelegatesCreate (Some m) (Some d)]
  /\ ((forall t, exists x, delegates_create env t (Some m) (Some d) = Returned x) ->
      fst add
      = Returned (mkResult true (Some m) (Some d) (Some "add")
                    (Some ("Delegate " +++ d +++ " added successfully")) None None)).
Proof.
  intros absent. rewrite <- (normalise_membership ds address) in absent.
  unfold_program. rewrite saved.
  destruct (key_read (h ++ [FsWrite])) as (c & p & K). rewrite K.
  cbn [app]. rewrite token, profile. reduce. rewrite listed. reduce.
  rewrite absent. reduce. split.
  - repeat (reduce; rewrite ?app_nil_r, ?cleaned; try branch); reflexivity.
  - intros accepted.
    match goal with
    | |- context [delegates_create env ?t _ _] =>
        destruct (accepted t) as (x & Hx); rewrite Hx
    end.
    repeat (reduce; rewrite ?app_nil_r, ?cleaned; try branch); reflexivity.
Qed.

Lemma library_remove_present (h : Trace) :
  existsb (fun x => Js.strict_eq (delegateEmail x) (Some d)) ds = true ->
  let remove := GmailIntegration.processDelegateOperation env "remove" (Some m)
                  (Some d) (Some file) h in
  filter is_mutating (snd remove) = [DelegatesDelete (Some m) (Some d)]
  /\ ((forall t, delegates_delete env t (Some m) (Some d) = Returned tt) ->
      fst remove
      = Returned (mkResult true (Some m) (Some d) (Some "remove")
                    (Some ("Delegate " +++ d +++ " removed successfully")) None None)).
Proof.
  intros present. rewrite <- (normalise_membership ds address) in present.
  unfold_program. rewrite saved.
  destruct (key_read (h ++ [FsWrite])) as (c & p & K). rewrite K.
  cbn [app]. rewrite token, profile. reduce. rewrite listed. reduce.
  rewrite present. reduce. split.
  - repeat (reduce; rewrite ?app_nil_r, ?cleaned; try branch); reflexivity.
  - intros accepted. rewrite accepted.
    repeat (reduce; rewrite ?app_nil_r, ?cleaned; try branch); reflexivity.
Qed.

End LibraryGuard.

(** X24. With a usable key, a mailbox that passes the identity probes and a
    listing that answers, an add whose delegate is not listed reaches the
    creation endpoint exactly once, and a remove whose delegate is listed
    the deletion endpoint exactly once, for that delegate on that mailbox;
    when the service accepts the call the result is the success record
    "added successfully" or "removed successfully" with the request's
    fields. *)
Theorem accepted_mutation_is_reported
    (env : Env) (m d : string) (file : File) (ds : list Delegate) (h : Trace) :
  (forall t, fs_write env t = Returned tt) ->
  (forall t, exists c p, fs_read env t = Returned (JsonKey c p)) ->
  (forall t, fs_unlink env t = Returned tt) ->
  (forall t, get_access_token env t (Some m) = Returned tt) ->
  (forall t, get_profile env t (Some m) = Returned tt) ->
  d <> EmptyString ->
  (forall t, delegates_list env t (Some m) = Returned (Some ds)) ->
  let present := existsb (fun x => Js.strict_eq (delegateEmail x) (Some d)) ds in
  let add := GmailIntegration.processDelegateOperation env "add" (Some m) (Some d)
               (Some file) h in
  let remove := GmailIntegration.processDelegateOperation env "remove" (Some m)
                  (Some d) (Some file) h in
  (present = false ->
   filter is_mutating (snd add) = [DelegatesCreate (Some m) (Some d)]
   /\ ((forall t, exists x, delegates_create env t (Some m) (Some d) = Returned x) ->
       fst add
       = Returned (mkResult true (Some m) (Some d) (Some "add")
                     (Some ("Delegate " +++ d +++ " added successfully")) None None)))
  /\ (present = true ->
      filter is_mutating (snd remove) = [DelegatesDelete (Some m) (Some d)]
      /\ ((forall t, delegates_delete env t (Some m) (Some d) = Returned tt) ->
          fst remove
          = Returned (mkResult true (Some m) (Some d) (Some "remove")
                        (Some ("Delegate " +++ d +++ " removed successfully"))
                        None None))).
Proof.
  intros saved key_read cleaned token profile Hd listed present add remove. split.
  - exact (@library_add_absent env m d file ds saved key_read cleaned token
             profile Hd listed h).
  - exact (@library_remove_present env m d file ds saved key_read cleaned token
             profile Hd listed h).
Qed.

Lemma accepted_mutation_is_reported_witness :
  let env := Examples.healthy Examples.accepted in
  let remove := GmailIntegration.processDelegateOperation env "remove"
                  (Some Examples.shared) (Some Examples.user)
                  (Some Examples.upload) [] in
  filter is_mutating (snd remove)
  = [DelegatesDelete (Some Examples.shared) (Some Examples.user)]
  /\ fst remove
     = Returned (mkResult true (Some Examples.shared) (Some Examples.user)
                   (Some "remove")
                   (Some ("Delegate " +++ Examples.user +++ " removed successfully"))
                   None None).
Proof.
  intros env remove.
  destruct (proj2 (@accepted_mutation_is_reported env Examples.shared Examples.user
                     Examples.upload Examples.accepted []
                     (fun _ => eq_refl)
                     (fun _ => ex_intro _ _ (ex_intro _ _ eq_refl))
                     (fun _ => eq_refl) (fun _ => eq_refl) (fun _ => eq_refl)
                     ltac:(discriminate) (fun _ => eq_refl)) eq_refl) as [H1 H2].
  exact (conj H1 (H2 (fun _ => eq_refl))).
Defined.

(** X25. In the direct-API batch functions the existence check works
    whenever the listing answers: [addDelegateDirectly] refuses a listed
    delegate with "already exists" after the one listing call, and otherwise
    issues exactly one creation, reporting success exactly when the service
    accepts it; [removeDelegateDirectly] refuses an unlisted delegate with
    "does not exist", and otherwise issues exactly one deletion, reporting
    success exactly when the service accepts it. *)
Theorem direct_batch_checks_when_listed
    (env : Env) (gmail : Gmail) (delegate : option string)
    (raw : option (list Delegate)) (h : Trace) :
  delegates_list env h (subject gmail) = Returned raw ->
  let present :=
    DirectRoute.some_delegate (match raw with Some l => l | None => [] end) delegate in
  let after := h ++ [DelegatesList (subject gmail)] in
  let add := DirectRoute.addDelegateDirectly env gmail delegate h in
  let remove := DirectRoute.removeDelegateDirectly env gmail delegate h in
  (if present
   then add = (Returned (mkResult false None None None
                           (Some ("Delegate " +++ Js.show delegate +++ " already exists"))
                           None None),
               [DelegatesList (subject gmail)])
   else filter is_remote (snd add)
        = [DelegatesList (subject gmail); DelegatesCreate (subject gmail) delegate]
        /\ (returned success (fst add) = Some true
            <-> exists x, delegates_create env after (subject gmail) delegate = Returned x))
  /\ (if present
      then filter is_remote (snd remove)
           = [DelegatesList (subject gmail); DelegatesDelete (subject gmail) delegate]
           /\ (returned success (fst remove) = Some true
               <-> delegates_delete env after (subject gmail) delegate = Returned tt)
      else remove = (Returned (mkResult false None None None
                                 (Some ("Delegate " +++ Js.show delegate
                                        +++ " does not exist"))
                                 None None),
                     [DelegatesList (subject gmail)])).
Proof.
  destruct gmail as [who]. cbn [subject]. intros L. cbv zeta.
  unfold DirectRoute.addDelegateDirectly, DirectRoute.removeDelegateDirectly,
    DirectRoute.listDelegates, Route.listDelegates, DirectRoute.checked,
    DirectRoute.some_delegate.
  unfold_program. rewrite L. reduce.
  destruct (existsb _ _); reduce; rewrite ?app_nil_r; split; try reflexivity.
  - destruct (delegates_delete env _ _ _) as [[]|e]; reduce;
      (split; [reflexivity|]); split; intros H; (reflexivity || discriminate H).
  - destruct (delegates_create env _ _ _) as [x|e]; reduce;
      (split; [reflexivity|]); split; intros H;
      try reflexivity; try discriminate H; try (now exists x);
      destruct H as (? & H); discriminate H.
Qed.

Lemma direct_batch_checks_when_listed_witness :
  let env := Examples.healthy Examples.accepted in
  let gmail := mkGmail (Some Examples.shared) in
  delegates_list env [] (subject gmail) = Returned (Some Examples.accepted)
  /\ DirectRoute.addDelegateDirectly env gmail (Some Examples.user) []
     = (Returned (mkResult false None None None
                    (Some ("Delegate " +++ Examples.user +++ " already exists"))
                    None None),
        [DelegatesList (Some Examples.shared)]).
Proof.
  intros env gmail. split; [reflexivity|].
  exact (proj1 (@direct_batch_checks_when_listed env gmail (Some Examples.user)
                  (Some Examples.accepted) [] eq_refl)).
Defined.
